(** * The [regex] template tag: a shallow embedding of its compiler

    The development follows the JavaScript sources of the template tag
    (the tag itself, [regexFromTemplate], [rewrite], [getOptions],
    [handlePreprocessors], [handlePlugins], [WrappedRegExp.exec],
    [interpolate], [transformForLocalFlags], [unmarkEmulationGroups]) and of
    the flag-x module ([flagXPreprocessor], [cleanPlugin]).

    Conventions.
    - A JavaScript string is a [string]; its characters are the code points
      0..255.  The sources test for no other character, except that [\s]
      also matches some white space above 255, which is outside the model.
    - A function that can [throw] returns a [Result].
    - The helpers imported from [utils.js], [pattern.js], [flag-n.js],
      [atomic.js], [subroutines.js] and [backcompat.js] are the fields of
      the record [Utils], and so is the native constructor of the engine;
      every definition and theorem of section [Compiler] is parametric in
      them. *)

From Stdlib Require Import String Ascii List Bool Arith Lia ZArith Btauto.
Import ListNotations.
Open Scope string_scope.
Open Scope bool_scope.

Set Implicit Arguments.

(** ** Exceptions *)

(** [throw new Error(message)] aborts the computation. *)
Inductive Result (A : Type) : Type :=
| Ok (a : A)
| Throw (message : string).

Arguments Ok {A} a.
Arguments Throw {A} message.

Definition bind {A B : Type} (r : Result A) (k : A -> Result B) : Result B :=
  match r with
  | Ok a => k a
  | Throw m => Throw m
  end.

Notation "x <- r ;; k" := (bind r (fun x => k))
  (at level 61, r at next level, right associativity).

Definition threw {A : Type} (r : Result A) : bool :=
  match r with
  | Ok _ => false
  | Throw _ => true
  end.

(** ** Strings *)

Definition str (c : ascii) : string := String c EmptyString.

(** [s.slice(n)] for [0 <= n]. *)
Fixpoint drop (n : nat) (s : string) : string :=
  match n, s with
  | O, _ => s
  | S _, EmptyString => EmptyString
  | S n', String _ s' => drop n' s'
  end.

(** [s.slice(0, n)] for [0 <= n]. *)
Fixpoint take (n : nat) (s : string) : string :=
  match n, s with
  | O, _ => EmptyString
  | S _, EmptyString => EmptyString
  | S n', String c s' => String c (take n' s')
  end.

(** [prev] holds the text before the current position, nearest character
    first; [push_rev m prev] moves the position past [m]. *)
Fixpoint push_rev (m prev : string) : string :=
  match m with
  | EmptyString => prev
  | String c m' => push_rev m' (String c prev)
  end.

(** [starts p s] is [s.startsWith(p)]. *)
Fixpoint starts (p s : string) : bool :=
  match p, s with
  | EmptyString, _ => true
  | String _ _, EmptyString => false
  | String a p', String b s' => Ascii.eqb a b && starts p' s'
  end.

(** A character class [[...]] of a regular expression, given by its members. *)
Fixpoint char_in (c : ascii) (set : string) : bool :=
  match set with
  | EmptyString => false
  | String a set' => Ascii.eqb c a || char_in c set'
  end.

(** The next character is in the class. *)
Definition next_in (set s : string) : bool :=
  match s with
  | EmptyString => false
  | String c _ => char_in c set
  end.

Fixpoint exists_char (p : ascii -> bool) (s : string) : bool :=
  match s with
  | EmptyString => false
  | String c s' => p c || exists_char p s'
  end.

Definition is_digit (c : ascii) : bool :=
  let n := nat_of_ascii c in ((48 <=? n) && (n <=? 57))%nat.

Definition is_alpha (c : ascii) : bool :=
  let n := nat_of_ascii c in
  (((65 <=? n) && (n <=? 90)) || ((97 <=? n) && (n <=? 122)))%nat.

(** [[A-Fa-f\d]] *)
Definition is_hex (c : ascii) : bool :=
  let n := nat_of_ascii c in
  is_digit c || (((65 <=? n) && (n <=? 70)) || ((97 <=? n) && (n <=? 102)))%nat.

(** [\s] on the code points 0..255: tab, line feed, vertical tab, form feed,
    carriage return, space and no-break space. *)
Definition is_ws (c : ascii) : bool :=
  let n := nat_of_ascii c in
  (((9 <=? n) && (n <=? 13)) || (n =? 32) || (n =? 160))%nat.

(** ** The syntax contexts *)

(** [Context] of the package regex-utilities (a dependency, documented in
    its README): where a needle is looked for. *)
Module Context.
Inductive t : Set := DEFAULT | CHAR_CLASS.
End Context.

(** Modelled from the spec: the enumeration [RegexContext] of [utils.js]
    is missing.  The members that the sources name are constructors;
    [OTHER] stands for any further member (the spec has enclosed-token
    contexts besides the one of a code point escape). *)
Module RegexContext.
Inductive t : Set :=
| DEFAULT
| CHAR_CLASS
| ENCLOSED_U
| GROUP_NAME
| INTERVAL_QUANTIFIER
| INVALID_INCOMPLETE_TOKEN
| OTHER (name : string).

Definition eqb (a b : t) : bool :=
  match a, b with
  | DEFAULT, DEFAULT
  | CHAR_CLASS, CHAR_CLASS
  | ENCLOSED_U, ENCLOSED_U
  | GROUP_NAME, GROUP_NAME
  | INTERVAL_QUANTIFIER, INTERVAL_QUANTIFIER
  | INVALID_INCOMPLETE_TOKEN, INVALID_INCOMPLETE_TOKEN => true
  | OTHER x, OTHER y => String.eqb x y
  | _, _ => false
  end.
End RegexContext.

(** Modelled from the spec: the enumeration [CharClassContext] of
    [utils.js] is missing; it is treated in the same way. *)
Module CharClassContext.
Inductive t : Set :=
| DEFAULT
| ENCLOSED_U
| INVALID_INCOMPLETE_TOKEN
| Q_TOKEN
| RANGE
| OTHER (name : string).

Definition eqb (a b : t) : bool :=
  match a, b with
  | DEFAULT, DEFAULT
  | ENCLOSED_U, ENCLOSED_U
  | INVALID_INCOMPLETE_TOKEN, INVALID_INCOMPLETE_TOKEN
  | Q_TOKEN, Q_TOKEN
  | RANGE, RANGE => true
  | OTHER x, OTHER y => String.eqb x y
  | _, _ => false
  end.
End CharClassContext.

(** ** Values *)

(** The properties of a native [RegExp] that the compiler reads. *)
Record RegExp : Set := mkRegExp {
  source : string;
  ignoreCase : bool;
  dotAll : bool;
  multiline : bool
}.

(** Modelled from the spec: the class [Pattern] of [pattern.js] is missing;
    a trusted pattern wraps a string, which [String(p)] returns. *)
Record Pattern : Set := pattern { patternValue : string }.

(** A [number], through what the compiler reads of it: [String(n)] and
    [n.toString(16)].  A safe integer (below 2^53 in absolute value) is
    held by its value: its two texts are its decimal and its hexadecimal
    digits, after a minus sign when it is negative.  Any other number (a
    fraction, an integer from 2^53 on, which [String] writes with an
    exponent from 10^21 on, [NaN], an infinity, the negative zero) is held
    by the two texts that the engine returns for it. *)
Inductive Number : Set :=
| SafeInteger (k : Z) (safe : (Z.abs k <? 9007199254740992)%Z = true)
| OtherNumber (decimal hexadecimal : string).

Inductive InterpolatedValue : Set :=
| VString (s : string)
| VRegExp (re : RegExp)
| VPattern (p : Pattern)
| VNumber (n : Number)
| VUndefined.

(** ** Number to string *)

Definition digit_char (d : N) : ascii :=
  if (d <? 10)%N then ascii_of_N (48 + d) else ascii_of_N (87 + d).

Fixpoint digits_of (fuel : nat) (radix n : N) (acc : string) : string :=
  match fuel with
  | O => acc
  | S fuel' =>
      let acc' := String (digit_char (n mod radix)) acc in
      if (n / radix =? 0)%N then acc' else digits_of fuel' radix (n / radix) acc'
  end.

(** [n.toString(radix)] for a safe integer [n] and [2 <= radix <= 36]; a
    number has at most as many digits as bits. *)
Definition number_toString (radix : N) (n : Z) : string :=
  let a := Z.abs_N n in
  let digits := digits_of (S (N.to_nat (N.log2 a))) radix a EmptyString in
  if (n <? 0)%Z then String "-" digits else digits.

(** [String(n)] and [n.toString(16)] of a number. *)
Definition Number_String (n : Number) : string :=
  match n with
  | SafeInteger k _ => number_toString 10 k
  | OtherNumber decimal _ => decimal
  end.

Definition Number_toString16 (n : Number) : string :=
  match n with
  | SafeInteger k _ => number_toString 16 k
  | OtherNumber _ hexadecimal => hexadecimal
  end.

(** [String(value)]; the compiler applies it to no [RegExp]. *)
Definition String_of (value : InterpolatedValue) : string :=
  match value with
  | VString s => s
  | VPattern p => patternValue p
  | VNumber n => Number_String n
  | VUndefined => "undefined"
  | VRegExp re => source re
  end.

(** ** Templates and options *)

(** [template.raw]: the literal segments. *)
Record RawTemplate : Set := mkTemplate { raw : list string }.

Record PluginData : Set := mkPluginData {
  pd_flags : string;
  useEmulationGroups : bool
}.

(** A plugin maps the expression to an expression, or throws. *)
Definition Plugin : Type := string -> PluginData -> Result string.

(** [options.disable]; an absent key reads as [false]. *)
Record Disable : Set := mkDisable {
  dis_x : bool;
  dis_n : bool;
  dis_v : bool;
  dis_atomic : bool;
  dis_subroutines : bool
}.

Record Force : Set := mkForce { force_v : bool }.

(** [RegexTagOptions]: what the caller passes; [None] is an absent key. *)
Record RegexTagOptions : Type := mkTagOptions {
  o_flags : option string;
  o_subclass : option bool;
  o_plugins : option (list Plugin);
  o_unicodeSetsPlugin : option (option Plugin);
  o_disable : option Disable;
  o_force : option Force
}.

(** [Required<RegexTagOptions>]: what [getOptions] returns. *)
Record Options : Type := mkOptions {
  flags : string;
  subclass : bool;
  plugins : list Plugin;
  unicodeSetsPlugin : option Plugin;
  disable : Disable;
  force : Force
}.

(** The empty options object [{}]. *)
Definition no_options : RegexTagOptions := mkTagOptions None None None None None None.

Definition no_disable : Disable := mkDisable false false false false false.

(** A regular expression source used as a needle: applied to the text
    before the position (nearest character first) and the text from the
    position on, it returns the length of its match there. *)
Definition Matcher : Type := string -> string -> option nat.

(** ** The imported helpers *)

Record PreprocessorResult (RunningContext : Type) : Type := mkPreprocessorResult {
  transformed : string;
  runningContext : option RunningContext
}.

(** A preprocessor receives [String(value)] and the inherited context. *)
Definition Preprocessor (RunningContext : Type) : Type :=
  string -> option RunningContext -> Result (PreprocessorResult RunningContext).

Record Utils : Type := mkUtils {
  (** The object [getEndContextForIncompleteExpression] returns; the
      compiler reads its properties [regexContext] and [charClassContext]. *)
  RunningContext : Type;
  regexContext : RunningContext -> RegexContext.t;
  charClassContext : RunningContext -> CharClassContext.t;
  getEndContextForIncompleteExpression : string -> option RunningContext -> RunningContext;
  enclosedTokenRegexContexts : RegexContext.t -> bool;
  enclosedTokenCharClassContexts : CharClassContext.t -> bool;
  (** Constants. *)
  flagVSupported : bool;
  patternModsSupported : bool;
  emulationGroupMarker : string;
  doublePunctuatorChars : string;
  capturingDelim : Matcher;
  noncapturingDelim : Matcher;
  (** String helpers. *)
  adjustNumberedBackrefs : string -> nat -> string;
  containsCharClassUnion : string -> bool;
  countCaptures : string -> nat;
  escapeV : string -> Context.t -> string;
  getBreakoutChar : string -> RegexContext.t -> CharClassContext.t -> string;
  sandboxLoneCharClassCaret : string -> string;
  sandboxLoneDoublePunctuatorChar : string -> string;
  sandboxUnsafeNulls : string -> option Context.t -> string;
  (** Preprocessing and the built-in plugins. *)
  preprocess : RawTemplate -> list InterpolatedValue -> Preprocessor RunningContext ->
               Options -> Result (RawTemplate * list InterpolatedValue);
  flagNPreprocessor : Preprocessor RunningContext;
  subroutinesPlugin : Plugin;
  possessivePlugin : Plugin;
  atomicPlugin : Plugin;
  backcompatPlugin : Plugin;
  (** The engine: the message of the [SyntaxError] that the native
      constructor [new RegExp(pattern, flags)] throws, if it throws. *)
  syntaxError : string -> string -> option string
}.

(** ** The package regex-utilities

    The package is a dependency; its functions are modelled after its
    documentation.
    [replaceUnescaped(expression, needle, replacement, context)] runs the
    regular expression [needle|(?<$skip>\[\^?|\\?.)] with flags [gsu] over
    the expression: at each position the needle is tried first, then the
    skip token (an opening bracket with its caret, an escaped character or
    one character).  A needle match in the requested context is replaced;
    every other match is copied, and the brackets it opens and closes are
    counted. *)
Module RegexUtilities.

(** The length of [\[\^?|\\?.] at the start of [rest]. *)
Definition skip_length (rest : string) : nat :=
  match rest with
  | EmptyString => 0
  | String c after =>
      if (Ascii.eqb c "[" && starts "^" after)
         || (Ascii.eqb c "\" && negb (String.eqb after ""))
      then 2 else 1
  end.

(** [(!context || (context === Context.DEFAULT) === !numCharClassesOpen)] *)
Definition in_context (context : option Context.t) (numCharClassesOpen : nat) : bool :=
  match context with
  | None => true
  | Some Context.DEFAULT => (numCharClassesOpen =? 0)%nat
  | Some Context.CHAR_CLASS => negb (numCharClassesOpen =? 0)%nat
  end.

(** The bracket count after the copied match [m]. *)
Definition track (m : string) (numCharClassesOpen : nat) : nat :=
  match m with
  | String "[" _ => S numCharClassesOpen
  | String "]" EmptyString => Nat.pred numCharClassesOpen
  | _ => numCharClassesOpen
  end.

Section Scan.
(** [G] is what the replacement reads of a match besides its text (the
    named groups); [St] is the state a replacement function updates. *)
Variables G St : Type.
Variable needle : string -> string -> option (nat * G).
Variable replacement : G -> string -> St -> St * string.
Variable context : option Context.t.

(** One iteration of [matchAll] per unit of fuel.  An empty match moves
    the position one character on. *)
Fixpoint scan (fuel : nat) (prev rest : string) (numCharClassesOpen : nat) (st : St)
  : St * string :=
  match fuel with
  | O => (st, EmptyString)
  | S fuel' =>
      match needle prev rest with
      | Some (n, g) =>
          let m := take n rest in
          let consumed := take (Nat.max n 1) rest in
          let next := drop (Nat.max n 1) rest in
          if in_context context numCharClassesOpen then
            let (st1, out) := replacement g m st in
            match rest with
            | EmptyString => (st1, out)
            | String _ _ =>
                let (st2, tail) := scan fuel' (push_rev consumed prev) next numCharClassesOpen st1 in
                (st2, out ++ tail)
            end
          else
            match rest with
            | EmptyString => (st, m)
            | String _ _ =>
                let (st2, tail) :=
                  scan fuel' (push_rev consumed prev) next (track m numCharClassesOpen) st in
                (st2, m ++ tail)
            end
      | None =>
          match rest with
          | EmptyString => (st, EmptyString)
          | String _ _ =>
              let m := take (skip_length rest) rest in
              let (st2, tail) :=
                scan fuel' (push_rev m prev) (drop (skip_length rest) rest)
                     (track m numCharClassesOpen) st in
              (st2, m ++ tail)
          end
      end
  end.

(** The needle matches that are replaced, in order: what the replacement
    function is called with (the groups and the text of each match). *)
Fixpoint matches (fuel : nat) (prev rest : string) (numCharClassesOpen : nat)
  : list (G * string) :=
  match fuel with
  | O => []
  | S fuel' =>
      match needle prev rest with
      | Some (n, g) =>
          let m := take n rest in
          let consumed := take (Nat.max n 1) rest in
          let next := drop (Nat.max n 1) rest in
          if in_context context numCharClassesOpen then
            (g, m) :: match rest with
                      | EmptyString => []
                      | String _ _ =>
                          matches fuel' (push_rev consumed prev) next numCharClassesOpen
                      end
          else
            match rest with
            | EmptyString => []
            | String _ _ =>
                matches fuel' (push_rev consumed prev) next (track m numCharClassesOpen)
            end
      | None =>
          match rest with
          | EmptyString => []
          | String _ _ =>
              let m := take (skip_length rest) rest in
              matches fuel' (push_rev m prev) (drop (skip_length rest) rest)
                      (track m numCharClassesOpen)
          end
      end
  end.

Definition replaced_matches (expression : string) : list (G * string) :=
  matches (S (String.length expression)) EmptyString expression 0.

(** The state left by the replacement function, and the result. *)
Definition replaceUnescaped_run (expression : string) (st : St) : St * string :=
  scan (S (String.length expression)) EmptyString expression 0 st.
End Scan.

(** A needle without groups. *)
Definition plain (needle : Matcher) : string -> string -> option (nat * unit) :=
  fun prev rest =>
    match needle prev rest with
    | Some n => Some (n, tt)
    | None => None
    end.

(** The result of the loop of [replaceUnescaped], with a string as
    replacement, from a position on: [prev] is the text before it, [rest]
    the text left, [numCharClassesOpen] the count of open brackets. *)
Definition replace_from (needle : Matcher) (replacement : string)
           (context : option Context.t) (prev rest : string) (numCharClassesOpen : nat)
  : string :=
  snd (scan (plain needle) (fun _ _ (st : unit) => (st, replacement)) context
            (S (String.length rest)) prev rest numCharClassesOpen tt).

(** [replaceUnescaped] with a string as replacement. *)
Definition replaceUnescaped (expression : string) (needle : Matcher) (replacement : string)
           (context : option Context.t) : string :=
  replace_from needle replacement context EmptyString expression 0.

(** [replaceUnescaped] with a function of the match as replacement. *)
Definition replaceUnescaped_fun (G : Type) (expression : string)
           (needle : string -> string -> option (nat * G))
           (replacement : G -> string -> string) (context : option Context.t) : string :=
  snd (replaceUnescaped_run needle (fun g m st => (st, replacement g m)) context
                            expression tt).

(** [hasUnescaped(expression, needle)] without a context: the loop of
    [execUnescaped], whose skip token is [\\?.]; it stops at the first
    needle match. *)
Fixpoint exec_scan (needle : Matcher) (fuel : nat) (prev rest : string) : bool :=
  match fuel with
  | O => false
  | S fuel' =>
      match needle prev rest with
      | Some _ => true
      | None =>
          match rest with
          | EmptyString => false
          | String "\" (String c rest') =>
              exec_scan needle fuel' (String c (String "\" prev)) rest'
          | String c rest' => exec_scan needle fuel' (String c prev) rest'
          end
      end
  end.

Definition hasUnescaped (expression : string) (needle : Matcher) : bool :=
  exec_scan needle (S (String.length expression)) EmptyString expression.

End RegexUtilities.

Import RegexUtilities.

(** ** Needles of the sources *)

(** A literal text as a needle. *)
Definition literal (text : string) : Matcher :=
  fun _ rest => if starts text rest then Some (String.length text) else None.

(** [^-|^&&|-$|&&$] *)
Definition boundaryOperator : Matcher :=
  fun prev rest =>
    match prev, rest with
    | EmptyString, String "-" _ => Some 1
    | EmptyString, String "&" (String "&" _) => Some 2
    | _, String "-" EmptyString => Some 1
    | _, String "&" (String "&" EmptyString) => Some 2
    | _, _ => None
    end.

(** The double quote, for the messages that quote a token. *)
Definition dquote : string := str (ascii_of_nat 34).

(** * The compiler *)

Section Compiler.

Variable U : Utils.

Local Abbreviation RC := (RunningContext U).

(** ** flag-x.js *)

(** [ws = /^\s$/] *)
Definition ws (m : string) : bool :=
  match m with
  | String c EmptyString => is_ws c
  | _ => false
  end.

(** [escapedWsOrHash = /^\\[\s#]$/] *)
Definition escapedWsOrHash (m : string) : bool :=
  match m with
  | String "\" (String c EmptyString) => is_ws c || Ascii.eqb c "#"
  | _ => false
  end.

(** [charClassWs = /^[ \t]$/] *)
Definition charClassWs (m : string) : bool :=
  match m with
  | String c EmptyString => Ascii.eqb c " " || Ascii.eqb c (ascii_of_nat 9)
  | _ => false
  end.

(** [escapedCharClassWs = /^\\[ \t]$/] *)
Definition escapedCharClassWs (m : string) : bool :=
  match m with
  | String "\" (String c EmptyString) => Ascii.eqb c " " || Ascii.eqb c (ascii_of_nat 9)
  | _ => false
  end.

(** [\d+], greedy: the number of digits at the start of [s]. *)
Fixpoint count_digits (s : string) : nat :=
  match s with
  | String c s' => if is_digit c then S (count_digits s') else 0
  | EmptyString => 0
  end.

(** The first alternative of [token], after its backslash:
    [[gk]<|[pPu]\{|c[A-Za-z]|u[A-Fa-f\d]{4}|x[A-Fa-f\d]{2}|0\d+]. *)
Definition escape_token_length (after : string) : option nat :=
  match after with
  | String c (String "<" _) =>
      if char_in c "gk" then Some 2 else None
  | String c (String "{" _) =>
      if char_in c "pPu" then Some 2 else None
  | String "c" (String a _) =>
      if is_alpha a then Some 2 else None
  | String "u" (String a (String b (String c (String d _)))) =>
      if is_hex a && is_hex b && is_hex c && is_hex d then Some 5 else None
  | String "x" (String a (String b _)) =>
      if is_hex a && is_hex b then Some 3 else None
  | String "0" digits =>
      match count_digits digits with
      | O => None
      | S n => Some (2 + n)
      end
  | _ => None
  end.

(** [(?<dp>[...])\k<dp>]: a double punctuator character, twice. *)
Definition double_punctuator (rest : string) : bool :=
  match rest with
  | String a (String b _) => char_in a (doublePunctuatorChars U) && Ascii.eqb a b
  | _ => false
  end.

(** [\\?.] with flag [s]. *)
Definition any_token_length (rest : string) : nat :=
  match rest with
  | String "\" (String _ _) => 2
  | String _ _ => 1
  | EmptyString => 0
  end.

(** The length of the match of [token] at a position; its alternatives
    are tried in order. *)
Definition token_length (prev rest : string) : nat :=
  match (match rest with
         | String "\" after => escape_token_length after
         | _ => None
         end) with
  | Some n => S n
  | None =>
      if starts "[^" rest then 2
      else match noncapturingDelim U prev rest with
           | Some n => n
           | None =>
               if starts "(?<" rest then 3
               else if double_punctuator rest then 2
               else if starts "--" rest then 2
               else any_token_length rest
           end
  end.

(** The local variables of [flagXPreprocessor]. *)
Record FlagXState : Type := mkFlagX {
  ignoringWs : bool;
  ignoringCharClassWs : bool;
  ignoringComment : bool;
  fx_expression : string;
  fx_transformed : string;
  lastSignificantToken : string;
  lastSignificantCharClassContext : option CharClassContext.t;
  separatorNeeded : bool;
  fx_runningContext : option RC
}.

Definition flagX_init (runningContext : option RC) : FlagXState :=
  mkFlagX false false false "" "" "" None false runningContext.

(** [update(str, {prefix, postfix})] appends to [transformed] and clears
    [separatorNeeded]. *)
Definition update (st : FlagXState) (s : string) (prefix postfix : bool) : FlagXState :=
  let text :=
    (if separatorNeeded st && prefix then "(?:)" else "") ++ s
    ++ (if postfix then "(?:)" else "") in
  mkFlagX (ignoringWs st) (ignoringCharClassWs st) (ignoringComment st)
          (fx_expression st) (fx_transformed st ++ text)
          (lastSignificantToken st) (lastSignificantCharClassContext st)
          false (fx_runningContext st).

Definition set_ignoring (st : FlagXState) (w c k : bool) (sep : bool) : FlagXState :=
  mkFlagX w c k (fx_expression st) (fx_transformed st)
          (lastSignificantToken st) (lastSignificantCharClassContext st)
          sep (fx_runningContext st).

(** [m[1]] of a two-character token. *)
Definition second_char (m : string) : string :=
  match m with
  | String _ (String c _) => str c
  | _ => ""
  end.

(** [/^(?:[?*+]|\?\?)$/.test(m)] *)
Definition is_quantifier_token (m : string) : bool :=
  String.eqb m "?" || String.eqb m "*" || String.eqb m "+" || String.eqb m "??".

Definition cc_is (a : CharClassContext.t) (b : CharClassContext.t) : bool :=
  CharClassContext.eqb a b.

(** The part of the loop body after the whitespace and comment skipping:
    from [expression += m] to the end of the body. *)
Definition flagX_token (st0 : FlagXState) (m : string) : Result FlagXState :=
  let expression := fx_expression st0 ++ m in
  let rc := getEndContextForIncompleteExpression U expression (fx_runningContext st0) in
  let st := mkFlagX (ignoringWs st0) (ignoringCharClassWs st0) (ignoringComment st0)
                    expression (fx_transformed st0)
                    (lastSignificantToken st0) (lastSignificantCharClassContext st0)
                    (separatorNeeded st0) (Some rc) in
  let r := regexContext U rc in
  let cc := charClassContext U rc in
  if String.eqb m "-" && RegexContext.eqb r RegexContext.CHAR_CLASS &&
     match lastSignificantCharClassContext st with
     | Some l => cc_is l CharClassContext.RANGE
     | None => false
     end
  then Throw "Invalid unescaped hyphen as the end value for a range"
  else
    st1 <-
      (if (RegexContext.eqb r RegexContext.DEFAULT && is_quantifier_token m) ||
          (RegexContext.eqb r RegexContext.INTERVAL_QUANTIFIER && String.eqb m "{")
       then Ok (update st m false
                       (String.eqb (lastSignificantToken st) "(" && String.eqb m "?"))
       else if RegexContext.eqb r RegexContext.DEFAULT then
         if ws m then Ok (set_ignoring st true (ignoringCharClassWs st) (ignoringComment st)
                                       (separatorNeeded st))
         else if starts "#" m then
           Ok (set_ignoring st (ignoringWs st) (ignoringCharClassWs st) true
                            (separatorNeeded st))
         else if escapedWsOrHash m then Ok (update st (second_char m) false false)
         else Ok (update st m true false)
       else if RegexContext.eqb r RegexContext.CHAR_CLASS &&
               negb (String.eqb m "[") && negb (String.eqb m "[^") then
         if charClassWs m &&
            (cc_is cc CharClassContext.DEFAULT || cc_is cc CharClassContext.RANGE ||
             cc_is cc CharClassContext.Q_TOKEN)
         then Ok (set_ignoring st (ignoringWs st) true (ignoringComment st)
                               (separatorNeeded st))
         else if cc_is cc CharClassContext.INVALID_INCOMPLETE_TOKEN then
           Throw ("Invalid incomplete token in character class: " ++ dquote ++ m ++ dquote)
         else if escapedCharClassWs m &&
                 (cc_is cc CharClassContext.DEFAULT || cc_is cc CharClassContext.Q_TOKEN)
         then Ok (update st (second_char m) false false)
         else if cc_is cc CharClassContext.DEFAULT then
           Ok (update st (sandboxLoneDoublePunctuatorChar U (sandboxUnsafeNulls U m None))
                      true false)
         else Ok (update st m true false)
       else Ok (update st m true false)) ;;
    Ok (if ignoringWs st1 || ignoringCharClassWs st1 || ignoringComment st1 then st1
        else mkFlagX (ignoringWs st1) (ignoringCharClassWs st1) (ignoringComment st1)
                     (fx_expression st1) (fx_transformed st1)
                     m (Some cc) (separatorNeeded st1) (fx_runningContext st1)).

(** The body of the loop, for the token [m]. *)
Definition flagX_step (st : FlagXState) (m : string) : Result FlagXState :=
  if ignoringComment st then
    if String.eqb m (str (ascii_of_nat 10))
    then Ok (set_ignoring st (ignoringWs st) (ignoringCharClassWs st) false true)
    else Ok st
  else if ignoringWs st then
    if ws m then Ok st
    else flagX_token (set_ignoring st false (ignoringCharClassWs st) (ignoringComment st) true) m
  else if ignoringCharClassWs st then
    if charClassWs m then Ok st
    else flagX_token (set_ignoring st (ignoringWs st) false (ignoringComment st)
                                   (separatorNeeded st)) m
  else flagX_token st m.

(** [for (const [m] of value.matchAll(token))]: one token per unit of
    fuel; an empty match moves one character on. *)
Fixpoint flagX_loop (fuel : nat) (prev rest : string) (st : FlagXState) : Result FlagXState :=
  match fuel with
  | O => Ok st
  | S fuel' =>
      match rest with
      | EmptyString => Ok st
      | String _ _ =>
          let n := token_length prev rest in
          st' <- flagX_step st (take n rest) ;;
          flagX_loop fuel' (push_rev (take (Nat.max n 1) rest) prev)
                     (drop (Nat.max n 1) rest) st'
      end
  end.

Definition flagXPreprocessor : Preprocessor RC :=
  fun value runningContext =>
    st <- flagX_loop (String.length value) "" value (flagX_init runningContext) ;;
    Ok (mkPreprocessorResult (fx_transformed st) (fx_runningContext st)).

(** [(?:\(\?:\)){2,}]: the separators at the start of [s], greedily. *)
Fixpoint count_separators (s : string) : nat :=
  match s with
  | String a (String b (String c (String d s'))) =>
      if Ascii.eqb "(" a && (Ascii.eqb "?" b && (Ascii.eqb ":" c && Ascii.eqb ")" d))
      then S (count_separators s') else 0
  | _ => 0
  end.

Definition repeatedSeparators : Matcher :=
  fun _ rest =>
    let n := count_separators rest in
    if (2 <=? n)%nat then Some (4 * n) else None.

(** [(?=[)|.[$\\]|\((?!DEFINE)|$)] on the text after the separator. *)
Definition separator_followed (after : string) : bool :=
  next_in ")|.[$\" after
  || (starts "(" after && negb (starts "DEFINE" (drop 1 after)))
  || String.eqb after "".

(** [(?<=[()|.\]^>]|\\[bBdDfnrsStvwW]|\(\?(?:[:=!]|<[=!])|^)] on the
    text before the separator, nearest character first. *)
Definition separator_preceded (prev : string) : bool :=
  next_in "()|.]^>" prev
  || match prev with
     | String c (String "\" _) => char_in c "bBdDfnrsStvwW"
     | _ => false
     end
  || match prev with
     | String c (String "?" (String "(" _)) => char_in c ":=!"
     | _ => false
     end
  || match prev with
     | String c (String "<" (String "?" (String "(" _))) => char_in c "=!"
     | _ => false
     end
  || String.eqb prev "".

(** [(?![?*+{])] *)
Definition quantifier_follows (after : string) : bool := next_in "?*+{" after.

(** [(?!marker)]; the marker's dollar signs are escaped, so that it is
    matched as a literal text. *)
Definition marker_follows (after : string) : bool :=
  starts (emulationGroupMarker U) after.

(** The second needle of [cleanPlugin]: a separator that may go. *)
Definition removableSeparator : Matcher :=
  fun prev rest =>
    if starts "(?:)" rest then
      let after := drop 4 rest in
      if (separator_followed after ||
          (separator_preceded prev && negb (quantifier_follows after)))
         && negb (marker_follows after)
      then Some 4 else None
    else None.

Definition cleanPlugin (expression : string) : string :=
  let expression :=
    replaceUnescaped expression repeatedSeparators "(?:)" (Some Context.DEFAULT) in
  replaceUnescaped expression removableSeparator "" (Some Context.DEFAULT).

(** ** The template tag *)

Definition implicit_flag (c : ascii) : bool := char_in c "nuvx".

Definition default (A : Type) (d : A) (o : option A) : A :=
  match o with
  | Some a => a
  | None => d
  end.

(** [getOptions]: the defaults, overridden by the caller's keys. *)
Definition getOptions (options : RegexTagOptions) : Result Options :=
  let o_fl := default "" (o_flags options) in
  let o_dis := default no_disable (o_disable options) in
  let o_for := default (mkForce false) (o_force options) in
  if exists_char implicit_flag o_fl then
    Throw "Implicit flags v/u/x/n cannot be explicitly added"
  else
    let useFlagV := force_v o_for || (if dis_v o_dis then false else flagVSupported U) in
    Ok (mkOptions (o_fl ++ (if useFlagV then "v" else "u"))
                  (default false (o_subclass options))
                  (default [] (o_plugins options))
                  (if useFlagV then None
                   else default (Some (backcompatPlugin U)) (o_unicodeSetsPlugin options))
                  o_dis o_for).

(** [handlePreprocessors]: flag x first, then flag n. *)
Definition handlePreprocessors (template : RawTemplate)
           (substitutions : list InterpolatedValue) (options : Options)
  : Result (RawTemplate * list InterpolatedValue) :=
  let preprocessors :=
    ((if dis_x (disable options) then [] else [flagXPreprocessor])
     ++ (if dis_n (disable options) then [] else [flagNPreprocessor U]))%list in
  fold_left
    (fun acc pp => ts <- acc ;; preprocess U (fst ts) (snd ts) pp options)
    preprocessors (Ok (template, substitutions)).

(** The list of plugins that [handlePlugins] runs, in order. *)
Definition plugin_list (options : Options) : list Plugin :=
  (plugins options
   ++ (if dis_subroutines (disable options) then [] else [subroutinesPlugin U])
   ++ (if dis_atomic (disable options) then [] else [possessivePlugin U; atomicPlugin U])
   ++ (if dis_x (disable options) then [] else [fun e _ => Ok (cleanPlugin e)])
   ++ (match unicodeSetsPlugin options with
       | None => []
       | Some p => [p]
       end))%list.

Definition handlePlugins (expression : string) (options : Options) : Result string :=
  fold_left
    (fun acc p => e <- acc ;; p e (mkPluginData (flags options) (subclass options)))
    (plugin_list options) (Ok expression).

(** *** Interpolation *)

Record Transformed : Set := mkTransformed {
  t_value : string;
  usedModifier : bool
}.

(** [outerFlags.includes(c)] *)
Definition includes (c : ascii) (s : string) : bool := char_in c s.

(** The text [\n\r\u2028\u2029] of the constant [newlines]. *)
Definition newlines : string := "\n\r\u2028\u2029".

(** [keys.filter(k => modFlagsObj[k] === b).join('')], for the keys
    [i], [m], [s] in this order. *)
Definition mod_keys (b : bool) (mi mm ms : option bool) : string :=
  let pick (k : string) (v : option bool) :=
    match v with
    | Some x => if Bool.eqb x b then k else ""
    | None => ""
    end in
  pick "i" mi ++ pick "m" mm ++ pick "s" ms.

Definition transformForLocalFlags (re : RegExp) (outerFlags : string) : Result Transformed :=
  let differs_i := negb (Bool.eqb (ignoreCase re) (includes "i" outerFlags)) in
  let differs_s := negb (Bool.eqb (dotAll re) (includes "s" outerFlags)) in
  let differs_m := negb (Bool.eqb (multiline re) (includes "m" outerFlags)) in
  if differs_i && negb (patternModsSupported U) then
    Throw "Pattern modifiers not supported, so flag i on the outer and interpolated regex must match"
  else
    let mod_i := if differs_i then Some (ignoreCase re) else None in
    let mod_s := if differs_s && patternModsSupported U then Some (dotAll re) else None in
    let mod_m := if differs_m && patternModsSupported U then Some (multiline re) else None in
    let value := source re in
    let value :=
      if differs_s && negb (patternModsSupported U) then
        replaceUnescaped value (literal ".")
          (if dotAll re then "[^]" else "[^" ++ newlines ++ "]") (Some Context.DEFAULT)
      else value in
    let value :=
      if differs_m && negb (patternModsSupported U) then
        let value :=
          replaceUnescaped value (literal "^")
            (if multiline re then "(?<=^|[" ++ newlines ++ "])" else "(?<![^])")
            (Some Context.DEFAULT) in
        replaceUnescaped value (literal "$")
          (if multiline re then "(?=$|[" ++ newlines ++ "])" else "(?![^])")
          (Some Context.DEFAULT)
      else value in
    let modOff := mod_keys false mod_i mod_m mod_s in
    let modifier :=
      mod_keys true mod_i mod_m mod_s
      ++ (if String.eqb modOff "" then "" else "-" ++ modOff) in
    if patternModsSupported U && negb (String.eqb modifier "") then
      Ok (mkTransformed ("(?" ++ modifier ++ ":" ++ value ++ ")") true)
    else Ok (mkTransformed value false).

Definition isRegExp (value : InterpolatedValue) : bool :=
  match value with
  | VRegExp _ => true
  | _ => false
  end.

Definition isPattern (value : InterpolatedValue) : bool :=
  match value with
  | VPattern _ => true
  | _ => false
  end.

Definition isNumber (value : InterpolatedValue) : bool :=
  match value with
  | VNumber _ => true
  | _ => false
  end.

(** [value.toString(16)] of a number. *)
Definition toString16 (value : InterpolatedValue) : string :=
  match value with
  | VNumber n => Number_toString16 n
  | _ => String_of value
  end.

(** The branch [RegexContext.DEFAULT] of [interpolate] for a [RegExp]. *)
Definition interpolate_regexp (re : RegExp) (flags : string) (precedingCaptures : nat)
  : Result string :=
  t <- transformForLocalFlags re flags ;;
  let backrefsAdjusted := adjustNumberedBackrefs U (t_value t) precedingCaptures in
  Ok (if usedModifier t then backrefsAdjusted else "(?:" ++ backrefsAdjusted ++ ")").

Definition interpolate (value : InterpolatedValue) (flags : string)
           (regexContext : RegexContext.t) (charClassContext : CharClassContext.t)
           (wrapEscapedStr : bool) (precedingCaptures : nat) : Result string :=
  if isRegExp value && negb (RegexContext.eqb regexContext RegexContext.DEFAULT) then
    Throw "Cannot interpolate a RegExp at this position because the syntax context does not match"
  else if RegexContext.eqb regexContext RegexContext.INVALID_INCOMPLETE_TOKEN ||
          CharClassContext.eqb charClassContext CharClassContext.INVALID_INCOMPLETE_TOKEN then
    Throw "Interpolation preceded by invalid incomplete token"
  else if isNumber value &&
          (RegexContext.eqb regexContext RegexContext.ENCLOSED_U ||
           CharClassContext.eqb charClassContext CharClassContext.ENCLOSED_U) then
    Ok (toString16 value)
  else
    let text := String_of value in
    let escapedValue :=
      if isRegExp value || isPattern value then ""
      else escapeV U text
                   (if RegexContext.eqb regexContext RegexContext.CHAR_CLASS
                    then Context.CHAR_CLASS else Context.DEFAULT) in
    let breakoutChar :=
      if isRegExp value then ""
      else getBreakoutChar U (if String.eqb escapedValue "" then text else escapedValue)
                           regexContext charClassContext in
    if negb (String.eqb breakoutChar "") then
      Throw ("Unescaped stray " ++ dquote ++ breakoutChar ++ dquote ++
             " in the interpolated value would have side effects outside it")
    else if RegexContext.eqb regexContext RegexContext.INTERVAL_QUANTIFIER ||
            RegexContext.eqb regexContext RegexContext.GROUP_NAME ||
            enclosedTokenRegexContexts U regexContext ||
            enclosedTokenCharClassContexts U charClassContext then
      Ok (if isPattern value then text else escapedValue)
    else if RegexContext.eqb regexContext RegexContext.CHAR_CLASS then
      if isPattern value then
        if hasUnescaped text boundaryOperator then
          Throw "Cannot use range or set operator at boundary of interpolated pattern; move the operation into the pattern or the operator outside of it"
        else
          let sandboxedValue :=
            sandboxLoneCharClassCaret U (sandboxLoneDoublePunctuatorChar U text) in
          Ok (if containsCharClassUnion U text then "[" ++ sandboxedValue ++ "]"
              else sandboxUnsafeNulls U sandboxedValue None)
      else
        Ok (if containsCharClassUnion U escapedValue then "[" ++ escapedValue ++ "]"
            else escapedValue)
    else
      match value with
      | VRegExp re => interpolate_regexp re flags precedingCaptures
      | VPattern _ => Ok ("(?:" ++ text ++ ")")
      | _ => Ok (if wrapEscapedStr then "(?:" ++ escapedValue ++ ")" else escapedValue)
      end.

(** *** Emulation groups *)

(** The needle [(?:capturingDelim)(?<mark>marker)?]: the length of the
    match, and whether the group [mark] holds a text ([if (mark)]). *)
Definition markedDelim : string -> string -> option (nat * bool) :=
  fun prev rest =>
    match capturingDelim U prev rest with
    | Some n =>
        if starts (emulationGroupMarker U) (drop n rest)
        then Some (n + String.length (emulationGroupMarker U),
                   negb (String.eqb (emulationGroupMarker U) ""))
        else Some (n, false)
    | None => None
    end.

(** The replacement function of [unmarkEmulationGroups]; the state is
    [captureMap]. *)
Definition unmark (mark : bool) (m : string) (captureMap : list bool)
  : list bool * string :=
  if mark
  then ((captureMap ++ [false])%list,
        take (String.length m - String.length (emulationGroupMarker U)) m)
  else ((captureMap ++ [true])%list, m).

Record Unmarked : Set := mkUnmarked {
  um_captureMap : list bool;
  um_expression : string
}.

Definition unmarkEmulationGroups (expression : string) : Unmarked :=
  let (captureMap, expression) :=
    replaceUnescaped_run markedDelim unmark (Some Context.DEFAULT) expression [true] in
  mkUnmarked captureMap expression.

(** A [WrappedRegExp]: the arguments of the native constructor and the
    private [#captureMap]. *)
Record WrappedRegExp : Set := mkWrapped {
  w_expression : string;
  w_flags : string;
  w_captureMap : option (list bool)
}.

(** [new WrappedRegExp(expression, flags, data)], once [super] has
    returned; a copy (no [data], the expression a [WrappedRegExp]) takes
    the map of the original. *)
Definition WrappedRegExp_new (expression : string + WrappedRegExp) (flags : string)
           (data : option (list bool)) : WrappedRegExp :=
  match expression, data with
  | inl e, _ => mkWrapped e flags data
  | inr w, Some _ => mkWrapped (w_expression w) flags data
  | inr w, None => mkWrapped (w_expression w) flags (w_captureMap w)
  end.

(** [captureMap[i]]; out of range it is [undefined], which is falsy. *)
Definition map_at (captureMap : list bool) (i : nat) : bool := nth i captureMap false.

(** The loop of [exec] from index [i] on, over [copy.slice(i)]. *)
Fixpoint exec_push (captureMap : list bool) (i : nat) (copy : list (option string))
  : list (option string) :=
  match copy with
  | [] => []
  | x :: copy' =>
      if map_at captureMap i
      then x :: exec_push captureMap (S i) copy'
      else exec_push captureMap (S i) copy'
  end.

(** [exec], applied to the result [match] of [RegExp.prototype.exec]: an
    array of the whole match and the captures ([None] for [undefined]),
    or [null]. *)
Definition exec (w : WrappedRegExp) (native : option (list (option string)))
  : option (list (option string)) :=
  match native, w_captureMap w with
  | Some copy, Some captureMap =>
      Some (hd None copy :: exec_push captureMap 1 (tl copy))
  | _, _ => native
  end.

(** *** The entry points *)

(** What [regexFromTemplate] constructs: the native regex that
    [new RegExp(expression, flags)] returned, held by the arguments of that
    call (the properties that the engine derives from them, such as
    [source], are not modelled), or a [WrappedRegExp]. *)
Inductive Compiled : Set :=
| NativeRegExp (expression flags : string)
| Wrapped (w : WrappedRegExp).

(** The call of the native constructor, [new RegExp(expression, flags)] or
    [super(expression, flags)]: it returns or throws a [SyntaxError]. *)
Definition RegExp_new (expression flags : string) : Result unit :=
  match syntaxError U expression flags with
  | Some message => Throw message
  | None => Ok tt
  end.

(** The variables of the loop of [regexFromTemplate]. *)
Record LoopState : Type := mkLoop {
  precedingCaptures : nat;
  l_expression : string;
  l_runningContext : option RC
}.

(** The captures that a substitution adds to [precedingCaptures]. *)
Definition substitution_captures (substitution : InterpolatedValue) : nat :=
  match substitution with
  | VRegExp re => countCaptures U (source re)
  | VPattern p => countCaptures U (patternValue p)
  | _ => 0
  end.

(** The body of the [forEach] for the segment [raw] of index [i]. *)
Definition template_step (opts : Options) (raws : list string)
           (substitutions : list InterpolatedValue)
           (st : LoopState) (i : nat) (raw : string) : Result LoopState :=
  let wrapEscapedStr :=
    negb (String.eqb raw "") || negb (String.eqb (nth (S i) raws "") "") in
  let captures := precedingCaptures st + countCaptures U raw in
  let expression := l_expression st ++ sandboxUnsafeNulls U raw (Some Context.CHAR_CLASS) in
  let rc := getEndContextForIncompleteExpression U expression (l_runningContext st) in
  if (i <? List.length raws - 1)%nat then
    let substitution := nth i substitutions VUndefined in
    fragment <- interpolate substitution (flags opts) (regexContext U rc)
                            (charClassContext U rc) wrapEscapedStr captures ;;
    Ok (mkLoop (captures + substitution_captures substitution)
               (expression ++ fragment) (Some rc))
  else Ok (mkLoop captures expression (Some rc)).

Fixpoint template_loop (opts : Options) (raws : list string)
         (substitutions : list InterpolatedValue)
         (st : LoopState) (i : nat) (todo : list string) : Result LoopState :=
  match todo with
  | [] => Ok st
  | raw :: todo' =>
      st' <- template_step opts raws substitutions st i raw ;;
      template_loop opts raws substitutions st' (S i) todo'
  end.

(** The expression assembled from the preprocessed template. *)
Definition assemble (opts : Options) (template : RawTemplate)
           (substitutions : list InterpolatedValue) : Result LoopState :=
  template_loop opts (raw template) substitutions (mkLoop 0 "" None) 0 (raw template).

(** [regexFromTemplate]; its last step is the call of a constructor, which
    throws when the engine rejects the expression or the flags. *)
Definition regexFromTemplate (options : RegexTagOptions) (template : RawTemplate)
           (substitutions : list InterpolatedValue) : Result Compiled :=
  opts <- getOptions options ;;
  prepped <- handlePreprocessors template substitutions opts ;;
  st <- assemble opts (fst prepped) (snd prepped) ;;
  expression <- handlePlugins (l_expression st) opts ;;
  if subclass opts then
    let unmarked := unmarkEmulationGroups expression in
    _ <- RegExp_new (um_expression unmarked) (flags opts) ;;
    Ok (Wrapped (WrappedRegExp_new (inl (um_expression unmarked)) (flags opts)
                                   (Some (um_captureMap unmarked))))
  else
    _ <- RegExp_new expression (flags opts) ;;
    Ok (NativeRegExp expression (flags opts)).

Record Rewritten : Set := mkRewritten {
  rw_expression : string;
  rw_flags : string
}.

(** [rewrite]; [preprocess] returns as many segments as it receives. *)
Definition rewrite (expression : string) (options : RegexTagOptions) : Result Rewritten :=
  opts <- getOptions options ;;
  if subclass opts then Throw "Cannot use option subclass"
  else
    prepped <- handlePreprocessors (mkTemplate [expression]) [] opts ;;
    expression <- handlePlugins (hd "" (raw (fst prepped))) opts ;;
    Ok (mkRewritten expression (flags opts)).

(** [regex(flags)] and [regex(options)] bind the options of
    [regexFromTemplate]; [regex] applied to a template uses [{}]. *)
Definition regex_flags (first : option string) :=
  regexFromTemplate (mkTagOptions (Some (default "" first)) None None None None None).

Definition regex_template := regexFromTemplate no_options.

End Compiler.

Arguments update : clear implicits.
Arguments set_ignoring : clear implicits.
Arguments flagX_token : clear implicits.
Arguments flagX_step : clear implicits.
Arguments flagX_loop : clear implicits.
Arguments template_step : clear implicits.
Arguments template_loop : clear implicits.

(** * A reference instance of the helpers

    [utils.js] and the modules of the built-in stages are not among the
    sources; module [Model] gives one instance of [Utils], used to run
    the compiler on concrete templates. *)
Module Model.

(** Modelled from the spec: the constant [emulationGroupMarker] of
    [utils.js] is missing; a synthetic marker text that no author writes
    after a group opener. *)
Definition emulationGroupMarker : string := "$E$".

(** Modelled from the spec: the constant [doublePunctuatorChars] of
    [utils.js] is missing; the punctuators that form a reserved double
    punctuator inside a character class. *)
Definition doublePunctuatorChars : string := "&!#$%*+,.:;<=>?@^`~".

(** [[^>]+>]: the length up to and including the first [>], if the name
    before it is not empty. *)
Fixpoint name_length (s : string) : option nat :=
  match s with
  | EmptyString => None
  | String ">" _ => Some 0
  | String _ s' =>
      match name_length s' with
      | Some n => Some (S n)
      | None => None
      end
  end.

(** Modelled from the spec: the constant [capturingDelim] of [utils.js]
    is missing; a capturing-group opening delimiter is a parenthesis that
    no [?] follows (and that does not open the condition of a reserved
    DEFINE construct), or the opener [(?<name>] of a named group. *)
Definition capturingDelim : Matcher :=
  fun prev rest =>
    match rest with
    | String "(" (String "?" (String "<" after)) =>
        if next_in "=!" after then None
        else match name_length after with
             | Some (S n) => Some (3 + S n + 1)
             | _ => None
             end
    | String "(" (String "?" _) => None
    | String "(" after =>
        if starts "?(" prev && starts "DEFINE)" after then None else Some 1
    | _ => None
    end.

(** Modelled from the spec: the constant [noncapturingDelim] of
    [utils.js] is missing; the openers of non-capturing, modifier,
    atomic and lookaround groups and of the DEFINE construct. *)
Definition noncapturingDelim : Matcher :=
  fun _ rest =>
    match rest with
    | String "(" (String "?" after) =>
        if starts "(DEFINE)" after then Some 10
        else match after with
             | String "<" (String c _) => if char_in c "=!" then Some 4 else None
             | String c _ => if char_in c ":=!>-" || is_alpha c then Some 3 else None
             | EmptyString => None
             end
    | _ => None
    end.

(** Modelled from the spec: [countCaptures] of [utils.js] is missing;
    the number of capturing-group opening delimiters of the expression,
    outside character classes. *)
Definition countCaptures (expression : string) : nat :=
  fst (replaceUnescaped_run (plain capturingDelim) (fun _ m n => (S n, m))
                            (Some Context.DEFAULT) expression 0).

(** The value of a decimal numeral. *)
Fixpoint decimal_value (s : string) (acc : nat) : nat :=
  match s with
  | String c s' =>
      if is_digit c then decimal_value s' (10 * acc + (nat_of_ascii c - 48)) else acc
  | EmptyString => acc
  end.

(** A backslash, a digit from 1 to 9 and the digits after it; the group
    [num] is the numeral. *)
Definition numberedBackref : string -> string -> option (nat * nat) :=
  fun _ rest =>
    match rest with
    | String "\" (String c digits) =>
        if is_digit c && negb (Ascii.eqb c "0")
        then Some (2 + count_digits digits, decimal_value (String c digits) 0)
        else None
    | _ => None
    end.

(** Modelled from the spec: [adjustNumberedBackrefs] of [utils.js] is
    missing; it shifts every numbered backreference of the expression by
    [precedingCaptures]. *)
Definition adjustNumberedBackrefs (expression : string) (precedingCaptures : nat) : string :=
  snd (replaceUnescaped_run numberedBackref
         (fun num _ st =>
            (st, "\" ++ number_toString 10 (Z.of_nat (num + precedingCaptures))))
         (Some Context.DEFAULT) expression tt).

Fixpoint escape_chars (set : string) (s : string) : string :=
  match s with
  | EmptyString => EmptyString
  | String c s' =>
      if char_in c set then String "\" (String c (escape_chars set s'))
      else String c (escape_chars set s')
  end.

(** Modelled from the spec: [escapeV] of [utils.js] is missing; it
    escapes a plain text for literal safety, and for class safety in a
    character class. *)
Definition escapeV (s : string) (context : Context.t) : string :=
  match context with
  | Context.CHAR_CLASS => escape_chars ("()[]{}|\/-" ++ doublePunctuatorChars) s
  | Context.DEFAULT => escape_chars "()[]{}|\^$*+?." s
  end.

(** [expression.replace(/\\./gsu, '')] *)
Fixpoint remove_escapes (s : string) : string :=
  match s with
  | String "\" (String _ s') => remove_escapes s'
  | String c s' => String c (remove_escapes s')
  | EmptyString => EmptyString
  end.

Fixpoint ends_with_backslash (s : string) : bool :=
  match s with
  | String "\" EmptyString => true
  | String _ s' => ends_with_backslash s'
  | EmptyString => false
  end.

(** The first delimiter that closes what was not opened, or else the
    delimiter left open. *)
Fixpoint unbalanced (l r : ascii) (s : string) (numOpen : nat) : string :=
  match s with
  | EmptyString => if (0 <? numOpen)%nat then str l else ""
  | String c s' =>
      if Ascii.eqb c l then unbalanced l r s' (S numOpen)
      else if Ascii.eqb c r then
        match numOpen with
        | O => str r
        | S n => unbalanced l r s' n
        end
      else unbalanced l r s' numOpen
  end.

(** The enclosed-token contexts besides [ENCLOSED_U]. *)
Definition R_ENCLOSED_P : RegexContext.t := RegexContext.OTHER "ENCLOSED_P".
Definition CC_ENCLOSED_P : CharClassContext.t := CharClassContext.OTHER "ENCLOSED_P".

(** Modelled from the spec: the set [enclosedTokenRegexContexts] of
    [utils.js] is missing; the contexts inside the braces of a property
    or code point escape. *)
Definition enclosedTokenRegexContexts (r : RegexContext.t) : bool :=
  RegexContext.eqb r RegexContext.ENCLOSED_U || RegexContext.eqb r R_ENCLOSED_P.

(** Modelled from the spec: the set [enclosedTokenCharClassContexts] of
    [utils.js] is missing; the same contexts inside a character class, and
    the inside of a string literal token. *)
Definition enclosedTokenCharClassContexts (cc : CharClassContext.t) : bool :=
  CharClassContext.eqb cc CharClassContext.ENCLOSED_U
  || CharClassContext.eqb cc CC_ENCLOSED_P
  || CharClassContext.eqb cc CharClassContext.Q_TOKEN.

(** Modelled from the spec: [getBreakoutChar] of [utils.js] is missing;
    the unescaped character of a fragment that would end the construct
    the hole is in, or the empty string. *)
Definition getBreakoutChar (expression : string) (r : RegexContext.t)
           (cc : CharClassContext.t) : string :=
  let escapesRemoved := remove_escapes expression in
  if ends_with_backslash escapesRemoved then "\"
  else if RegexContext.eqb r RegexContext.DEFAULT then
    unbalanced "(" ")" escapesRemoved 0
  else if RegexContext.eqb r RegexContext.CHAR_CLASS &&
          negb (enclosedTokenCharClassContexts cc) then
    unbalanced "[" "]" escapesRemoved 0
  else if RegexContext.eqb r RegexContext.INTERVAL_QUANTIFIER ||
          enclosedTokenRegexContexts r || enclosedTokenCharClassContexts cc then
    if char_in "}" escapesRemoved then "}" else ""
  else if RegexContext.eqb r RegexContext.GROUP_NAME then
    if char_in ">" escapesRemoved then ">" else ""
  else "".

(** Every character is a hexadecimal digit. *)
Fixpoint all_hex (s : string) : bool :=
  match s with
  | EmptyString => true
  | String c s' => is_hex c && all_hex s'
  end.

(** The number of characters before the first closing brace. *)
Fixpoint brace_length (s : string) : option nat :=
  match s with
  | EmptyString => None
  | String "}" _ => Some 0
  | String _ s' =>
      match brace_length s' with
      | Some n => Some (S n)
      | None => None
      end
  end.

(** The length, after its backslash, of an escape that is one class
    element: a control escape with its letter, a property escape or a code
    point escape with its braces, a [\u] escape with four digits, a [\x]
    escape with two, or else one character. *)
Definition escape_element_length (after : string) : nat :=
  match after with
  | EmptyString => 0
  | String c after' =>
      if Ascii.eqb c "c" && next_in "abcdefghijklmnopqrstuvwxyzABCDEFGHIJKLMNOPQRSTUVWXYZ" after'
      then 2
      else if (char_in c "pP" || Ascii.eqb c "u") && starts "{" after' then
        match brace_length (drop 1 after') with
        | Some (S n) =>
            if Ascii.eqb c "u" && negb (all_hex (take (S n) (drop 1 after'))) then 1
            else 2 + S n + 1
        | _ => 1
        end
      else if Ascii.eqb c "u" && all_hex (take 4 after') && (4 <=? String.length after')%nat
      then 5
      else if Ascii.eqb c "x" && all_hex (take 2 after') && (2 <=? String.length after')%nat
      then 3
      else 1
  end.

(** The elements of a class, a token per unit of fuel: the state is
    [(hasFirst, lastM is a closing bracket)]. *)
Fixpoint union_scan (fuel : nat) (s : string) (hasFirst lastClose : bool) : bool :=
  match fuel with
  | O => false
  | S fuel' =>
      match s with
      | EmptyString => false
      | String "\" (String "q" _) => true
      | String "\" after =>
          hasFirst || lastClose
          || union_scan fuel' (drop (escape_element_length after) after) true false
      | String "-" (String "-" s') => union_scan fuel' s' false false
      | String "&" (String "&" s') => union_scan fuel' s' false false
      | String "-" s' => union_scan fuel' s' false false
      | String "[" s' => hasFirst || union_scan fuel' s' hasFirst false
      | String "]" s' => union_scan fuel' s' hasFirst true
      | String _ s' => hasFirst || lastClose || union_scan fuel' s' true false
      end
  end.

(** Modelled from the spec: [containsCharClassUnion] of [utils.js] is
    missing; whether the content parses as more than one class element,
    where a range, a subtraction and an intersection form one element, and
    so does an escape with the digits, the letter or the braces that
    belong to it. *)
Definition containsCharClassUnion (charClassPattern : string) : bool :=
  union_scan (String.length charClassPattern) charClassPattern false false.

(** Modelled from the spec: [sandboxLoneCharClassCaret] of [utils.js] is
    missing; a leading caret is escaped, so that it does not negate the
    class the value lands in. *)
Definition sandboxLoneCharClassCaret (s : string) : string :=
  match s with
  | String "^" s' => String "\" (String "^" s')
  | _ => s
  end.

(** Modelled from the spec: [sandboxLoneDoublePunctuatorChar] of
    [utils.js] is missing; a leading punctuator that is not doubled is
    escaped, so that it does not pair with the character before it. *)
Definition sandboxLoneDoublePunctuatorChar (s : string) : string :=
  match s with
  | String a rest =>
      if char_in a doublePunctuatorChars && negb (starts (str a) rest)
      then String "\" s else s
  | EmptyString => s
  end.

(** A backslash and a zero that no digit follows. *)
Definition unsafeNull : Matcher :=
  fun _ rest =>
    match rest with
    | String "\" (String "0" after) =>
        match after with
        | String c _ => if is_digit c then None else Some 2
        | EmptyString => Some 2
        end
    | _ => None
    end.

(** Modelled from the spec: [sandboxUnsafeNulls] of [utils.js] is
    missing; the null escape is rewritten to its hexadecimal form, so
    that digits after it are not read as part of it. *)
Definition sandboxUnsafeNulls (s : string) (context : option Context.t) : string :=
  replaceUnescaped s unsafeNull "\x00" context.

(** The state of the context tracker. *)
Record ModelContext : Set := mkContext {
  mc_regexContext : RegexContext.t;
  mc_charClassContext : CharClassContext.t;
  mc_charClassDepth : nat;
  mc_lastPos : nat
}.

(** The text ends in the middle of the escape that starts with a backslash
    and [c]: a control escape without its letter, a [\u] escape with fewer
    than four digits, a [\x] escape with fewer than two. *)
Definition incomplete_escape (c : ascii) (after : string) : bool :=
  (Ascii.eqb c "c" && String.eqb after "")
  || (Ascii.eqb c "u" && all_hex after && (String.length after <? 4)%nat)
  || (Ascii.eqb c "x" && all_hex after && (String.length after <? 2)%nat).

(** The tracker over the text after [lastPos].  In a character class the
    context is [RANGE] right after a range hyphen and [DEFAULT] again after
    the next token: the hyphen that [flagXPreprocessor] rejects in the
    [RANGE] context is, in the words of its error, the end value for a
    range.  A doubled hyphen is one token, the subtraction operator, and no
    range hyphen.  The context is that of an incomplete token when the text
    ends in the middle of an escape. *)
Fixpoint advance (s : string) (r : RegexContext.t) (cc : CharClassContext.t) (depth : nat)
  : RegexContext.t * CharClassContext.t * nat :=
  let in_class := RegexContext.eqb r RegexContext.CHAR_CLASS in
  match s with
  | EmptyString => (r, cc, depth)
  | String "\" EmptyString =>
      if in_class then (r, CharClassContext.INVALID_INCOMPLETE_TOKEN, depth)
      else (RegexContext.INVALID_INCOMPLETE_TOKEN, cc, depth)
  | String "\" (String "u" (String "{" s')) =>
      if in_class then advance s' r CharClassContext.ENCLOSED_U depth
      else advance s' RegexContext.ENCLOSED_U cc depth
  | String "\" (String "q" (String "{" s')) =>
      if in_class then advance s' r CharClassContext.Q_TOKEN depth
      else advance s' RegexContext.DEFAULT cc depth
  | String "\" (String c ((String "{" s') as tail)) =>
      if char_in c "pP" then
        if in_class then advance s' r CC_ENCLOSED_P depth
        else advance s' R_ENCLOSED_P cc depth
      else if in_class then advance tail r CharClassContext.DEFAULT depth
      else advance tail RegexContext.DEFAULT cc depth
  | String "\" (String c (String "<" s')) =>
      if char_in c "kg" && negb in_class then advance s' RegexContext.GROUP_NAME cc depth
      else if in_class then advance s' r CharClassContext.DEFAULT depth
      else advance s' RegexContext.DEFAULT cc depth
  | String "\" (String c s') =>
      if incomplete_escape c s' then
        if in_class then (r, CharClassContext.INVALID_INCOMPLETE_TOKEN, depth)
        else (RegexContext.INVALID_INCOMPLETE_TOKEN, cc, depth)
      else if in_class then advance s' r CharClassContext.DEFAULT depth
      else advance s' RegexContext.DEFAULT cc depth
  | String "[" s' => advance s' RegexContext.CHAR_CLASS CharClassContext.DEFAULT (S depth)
  | String "]" s' =>
      if in_class then
        advance s' (if (depth <=? 1)%nat then RegexContext.DEFAULT else RegexContext.CHAR_CLASS)
                CharClassContext.DEFAULT (Nat.pred depth)
      else advance s' r cc depth
  | String "(" (String "?" (String "<" s')) =>
      if in_class then advance s' r CharClassContext.DEFAULT depth
      else if next_in "=!" s' then advance s' RegexContext.DEFAULT cc depth
      else advance s' RegexContext.GROUP_NAME cc depth
  | String c s' =>
      if in_class then
        if enclosedTokenCharClassContexts cc then
          advance s' r (if Ascii.eqb c "}" then CharClassContext.DEFAULT else cc) depth
        else if Ascii.eqb c "-" then
          match s' with
          | String "-" s'' => advance s'' r CharClassContext.DEFAULT depth
          | _ => advance s' r CharClassContext.RANGE depth
          end
        else advance s' r CharClassContext.DEFAULT depth
      else if RegexContext.eqb r RegexContext.GROUP_NAME then
        advance s' (if Ascii.eqb c ">" then RegexContext.DEFAULT else r) cc depth
      else if RegexContext.eqb r RegexContext.INTERVAL_QUANTIFIER || enclosedTokenRegexContexts r then
        advance s' (if Ascii.eqb c "}" then RegexContext.DEFAULT else r) cc depth
      else if Ascii.eqb c "{" then advance s' RegexContext.INTERVAL_QUANTIFIER cc depth
      else advance s' RegexContext.DEFAULT cc depth
  end.

(** Modelled from the spec: [getEndContextForIncompleteExpression] of
    [utils.js] is missing; the context tracker of the spec: it reads the
    text after the position the previous context ends at and returns
    the context at the end of the expression. *)
Definition getEndContextForIncompleteExpression (incompleteExpression : string)
           (runningContext : option ModelContext) : ModelContext :=
  let start := default (mkContext RegexContext.DEFAULT CharClassContext.DEFAULT 0 0)
                       runningContext in
  match advance (drop (mc_lastPos start) incompleteExpression)
                (mc_regexContext start) (mc_charClassContext start)
                (mc_charClassDepth start) with
  | (r, cc, depth) => mkContext r cc depth (String.length incompleteExpression)
  end.

(** [{...runningContext, lastPos: 0}] *)
Definition restart (runningContext : option ModelContext) : option ModelContext :=
  match runningContext with
  | Some c => Some (mkContext (mc_regexContext c) (mc_charClassContext c)
                              (mc_charClassDepth c) 0)
  | None => None
  end.

(** The loop of [preprocess] over the segments from index [i] on. *)
Fixpoint preprocess_loop (pp : Preprocessor ModelContext)
         (todo : list string) (substitutions : list InterpolatedValue)
         (inherited : option ModelContext)
  : Result (list string * list InterpolatedValue) :=
  match todo with
  | [] => Ok ([], [])
  | segment :: todo' =>
      result <- pp segment (restart inherited) ;;
      match todo' with
      | [] => Ok ([transformed result], [])
      | _ :: _ =>
          let substitution := hd VUndefined substitutions in
          sub <- match substitution with
                 | VPattern p =>
                     r <- pp (patternValue p) (restart (runningContext result)) ;;
                     Ok (VPattern (pattern (transformed r)), runningContext r)
                 | _ => Ok (substitution, runningContext result)
                 end ;;
          more <- preprocess_loop pp todo' (tl substitutions) (snd sub) ;;
          Ok ((transformed result :: fst more)%list, (fst sub :: snd more)%list)
      end
  end.

(** Modelled from the spec: [preprocess] of [utils.js] is missing; it
    applies a preprocessor to the literal segments and to the
    interpolated patterns, from left to right, each call inheriting the
    context the previous one returned; strings, numbers and native
    regexes are left as they are. *)
Definition preprocess (template : RawTemplate) (substitutions : list InterpolatedValue)
           (pp : Preprocessor ModelContext) (options : Options)
  : Result (RawTemplate * list InterpolatedValue) :=
  r <- preprocess_loop pp (raw template) substitutions None ;;
  Ok (mkTemplate (fst r), snd r).

(** A parenthesis that no question mark follows. *)
Definition unnamedOpener : Matcher :=
  fun _ rest =>
    match rest with
    | String "(" (String "?" _) => None
    | String "(" _ => Some 1
    | _ => None
    end.

(** Modelled from the spec: [flagNPreprocessor] of [flag-n.js] is
    missing; the normalization that the spec leaves to an external
    collaborator: outside character classes the opener of an unnamed
    group becomes the opener of a non-capturing group. *)
Definition flagNPreprocessor : Preprocessor ModelContext :=
  fun value runningContext =>
    Ok (mkPreprocessorResult
          (replaceUnescaped value unnamedOpener "(?:" (Some Context.DEFAULT))
          (Some (getEndContextForIncompleteExpression value runningContext))).

(** Modelled from the spec: the stages of [subroutines.js], [atomic.js]
    and [backcompat.js] are missing; the spec leaves their algorithms to
    external collaborators, and the instance runs them as stages that
    find nothing to rewrite. *)
Definition idlePlugin : Plugin := fun expression _ => Ok expression.

(** The flags are known to the engine, none is repeated, and [u] and [v]
    do not come together. *)
Fixpoint valid_flags (flags seen : string) : bool :=
  match flags with
  | EmptyString => negb (char_in "u" seen && char_in "v" seen)
  | String c flags' =>
      char_in c "dgimsuvy" && negb (char_in c seen) && valid_flags flags' (String c seen)
  end.

(** No group and no class is left open or closed without being open, and
    the text does not end in a lone backslash; with flag [v] classes
    nest. *)
Fixpoint well_nested (nesting : bool) (s : string) (classes groups : nat) : bool :=
  match s with
  | EmptyString => (classes =? 0)%nat && (groups =? 0)%nat
  | String "\" EmptyString => false
  | String "\" (String _ s') => well_nested nesting s' classes groups
  | String "[" s' =>
      if (classes =? 0)%nat || nesting then well_nested nesting s' (S classes) groups
      else well_nested nesting s' classes groups
  | String "]" s' =>
      match classes with
      | O => false
      | S n => well_nested nesting s' n groups
      end
  | String "(" s' =>
      if (classes =? 0)%nat then well_nested nesting s' classes (S groups)
      else well_nested nesting s' classes groups
  | String ")" s' =>
      if (classes =? 0)%nat then
        match groups with
        | O => false
        | S n => well_nested nesting s' classes n
        end
      else well_nested nesting s' classes groups
  | String _ s' => well_nested nesting s' classes groups
  end.

(** The engine is no code of the repository.  The reference engine
    rejects flags that are unknown, repeated or hold both [u] and [v], and
    a pattern whose groups or classes are not closed or that ends in a
    lone backslash; it accepts every other pattern. *)
Definition syntaxError (expression flags : string) : option string :=
  if negb (valid_flags flags "") then
    Some ("Invalid flags supplied to RegExp constructor '" ++ flags ++ "'")
  else if negb (well_nested (char_in "v" flags) expression 0 0) then
    Some ("Invalid regular expression: /" ++ expression ++ "/" ++ flags)
  else None.

Definition utils : Utils :=
  @mkUtils ModelContext mc_regexContext mc_charClassContext
           getEndContextForIncompleteExpression
           enclosedTokenRegexContexts enclosedTokenCharClassContexts
           true false emulationGroupMarker doublePunctuatorChars
           capturingDelim noncapturingDelim
           adjustNumberedBackrefs containsCharClassUnion countCaptures escapeV
           getBreakoutChar sandboxLoneCharClassCaret sandboxLoneDoublePunctuatorChar
           sandboxUnsafeNulls
           preprocess flagNPreprocessor
           idlePlugin idlePlugin idlePlugin idlePlugin
           syntaxError.

End Model.

(** The plugin [wiggle] of the test suite: [str.replace(/~/g, 'wiggle')]. *)
Fixpoint wiggle_text (s : string) : string :=
  match s with
  | String "~" s' => "wiggle" ++ wiggle_text s'
  | String c s' => String c (wiggle_text s')
  | EmptyString => EmptyString
  end.

Definition wiggle : Plugin := fun expression _ => Ok (wiggle_text expression).


(** * Notions used in the statements *)

(** The positions where [interpolate] returns the value as it is (a
    pattern) or escaped (a string, a number): the bound of an interval
    quantifier, a group name, an enclosed token. *)
Definition restricted_position (U : Utils) (r : RegexContext.t) (cc : CharClassContext.t)
  : bool :=
  RegexContext.eqb r RegexContext.INTERVAL_QUANTIFIER
  || RegexContext.eqb r RegexContext.GROUP_NAME
  || enclosedTokenRegexContexts U r
  || enclosedTokenCharClassContexts U cc.

(** The token before the hole is complete. *)
Definition complete_token (r : RegexContext.t) (cc : CharClassContext.t) : bool :=
  negb (RegexContext.eqb r RegexContext.INVALID_INCOMPLETE_TOKEN)
  && negb (CharClassContext.eqb cc CharClassContext.INVALID_INCOMPLETE_TOKEN).

(** The hole is inside the braces of a code point escape. *)
Definition code_point_escape (r : RegexContext.t) (cc : CharClassContext.t) : bool :=
  RegexContext.eqb r RegexContext.ENCLOSED_U
  || CharClassContext.eqb cc CharClassContext.ENCLOSED_U.

(** The text that [interpolate] passes to [getBreakoutChar]. *)
Definition checked_text (escapedValue value : string) : string :=
  if String.eqb escapedValue "" then value else escapedValue.

(** [Context.CHAR_CLASS] in a character class, else [Context.DEFAULT]. *)
Definition escape_context (r : RegexContext.t) : Context.t :=
  if RegexContext.eqb r RegexContext.CHAR_CLASS then Context.CHAR_CLASS else Context.DEFAULT.




(** The capturing-group opening delimiters of the expression outside
    character classes, from left to right: for each of them, whether the
    emulation-group marker follows it. *)
Definition marked_delimiters (U : Utils) (expression : string) : list bool :=
  map fst (replaced_matches (markedDelim U) (Some Context.DEFAULT) expression).

(** The text of a delimiter match, without the marker when it has one. *)
Definition without_marker (U : Utils) (mark : bool) (m : string) : string :=
  if mark then take (String.length m - String.length (emulationGroupMarker U)) m else m.


(** [k] adjacent separators. *)
Fixpoint separators (k : nat) : string :=
  match k with
  | O => ""
  | S k' => "(?:)" ++ separators k'
  end.

(** The first pass of [cleanPlugin], from a position on. *)
Definition collapse_from (prev rest : string) (numCharClassesOpen : nat) : string :=
  replace_from repeatedSeparators "(?:)" (Some Context.DEFAULT) prev rest numCharClassesOpen.

(** The second pass of [cleanPlugin], from a position on. *)
Definition delete_from (U : Utils) (prev rest : string) (numCharClassesOpen : nat) : string :=
  replace_from (removableSeparator U) "" (Some Context.DEFAULT) prev rest numCharClassesOpen.

(** A token before the separator after which it may go: a parenthesis, an
    alternation bar, a dot, a closing bracket, a caret, a closing angle
    bracket, one of the listed escapes, the opener of a non-capturing group
    or of a lookaround.  [prev] has the nearest character first. *)
Definition preceded_by_boundary (prev : string) : bool :=
  next_in "()|.]^>" prev
  || match prev with
     | String c (String "\" _) => char_in c "bBdDfnrsStvwW"
     | _ => false
     end
  || match prev with
     | String c (String "?" (String "(" _)) => char_in c ":=!"
     | _ => false
     end
  || match prev with
     | String c (String "<" (String "?" (String "(" _))) => char_in c "=!"
     | _ => false
     end.

(** A token after the separator before which it may go: a closing
    parenthesis, an alternation bar, a dot, an opening bracket, a dollar, a
    backslash, or an opening parenthesis that DEFINE does not follow. *)
Definition followed_by_boundary (after : string) : bool :=
  next_in ")|.[$\" after
  || (starts "(" after && negb (starts "DEFINE" (drop 1 after))).

(** The four conditions of the cleanup, on the text before and after a
    separator. *)
Definition condition_a (prev after : string) : bool :=
  String.eqb prev "" && negb (next_in "?*+{" after).

Definition condition_b (after : string) : bool := String.eqb after "".

Definition condition_c (after : string) : bool := followed_by_boundary after.

Definition condition_d (prev after : string) : bool :=
  preceded_by_boundary prev && negb (next_in "?*+{" after).

(** One of the four conditions holds, and the marker does not follow. *)
Definition deletable (U : Utils) (prev after : string) : bool :=
  (condition_a prev after || condition_b after || condition_c after
   || condition_d prev after)
  && negb (starts (emulationGroupMarker U) after).

(** The message of the error that [flagXPreprocessor] throws at a hyphen. *)
Definition hyphen_error : string :=
  "Invalid unescaped hyphen as the end value for a range".

(** The state of the loop of [flagXPreprocessor] after the tokens of
    [[a- ], with the reference instance. *)
Definition after_range_hyphen : FlagXState Model.utils :=
  mkFlagX Model.utils false true false "[a- " "[a-" "-"
          (Some CharClassContext.RANGE) false
          (Some (Model.mkContext RegexContext.CHAR_CLASS CharClassContext.DEFAULT 1 4)).

(** The captures that the loop of [regexFromTemplate] counts for the
    segment of index [j] and the substitution after it. *)
Definition part_captures (U : Utils) (raws : list string)
           (substitutions : list InterpolatedValue) (j : nat) : nat :=
  countCaptures U (nth j raws "")
  + (if (j <? List.length raws - 1)%nat
     then substitution_captures U (nth j substitutions VUndefined) else 0).

(** The sum of the counts of the parts before the segment of index [i]. *)
Definition captures_upto (U : Utils) (raws : list string)
           (substitutions : list InterpolatedValue) (i : nat) : nat :=
  list_sum (map (part_captures U raws substitutions) (seq 0 i)).

(** The fragment of a native regex: the transformed source with its
    backreferences shifted, in a non-capturing group unless a modifier
    group is used. *)
Definition regexp_fragment (U : Utils) (t : Transformed) (shift : nat) : string :=
  if usedModifier t then adjustNumberedBackrefs U (t_value t) shift
  else "(?:" ++ adjustNumberedBackrefs U (t_value t) shift ++ ")".

(** Options that switch off every stage but the sandboxing of the
    assembled segments. *)
Definition bare_options (fl : string) : RegexTagOptions :=
  mkTagOptions (Some fl) None None (Some None)
               (Some (mkDisable true true false true true)) None.

(** ** The capture map in the words of the spec

    The spec scans the expression from left to right; for every
    capturing-group opening delimiter it appends [true] to the map unless
    the marker comes immediately after the delimiter, in which case it
    appends [false] and the marker is stripped.  The scan below is written
    from these words, on its own tokens and its own count of the character
    classes that are open. *)







(** * Notions used in the further properties *)

(** The plugins of a list, run from left to right on the expression. *)
Definition run_plugins (ps : list Plugin) (data : PluginData) (expression : string)
  : Result string :=
  fold_left (fun acc p => e <- acc ;; p e data) ps (Ok expression).

(** The options without the plugins of the caller. *)
Definition without_user_plugins (opts : Options) : Options :=
  mkOptions (flags opts) (subclass opts) [] (unicodeSetsPlugin opts)
            (disable opts) (force opts).

(** ** The tag *)

(** What [regex] can be called with first: a template (an object whose [raw]
    is an array), a string, [undefined], another plain object, or anything
    else. *)
Inductive TagArgument : Type :=
| TemplateArg (template : RawTemplate)
| FlagsArg (flags : string)
| UndefinedArg
| OptionsArg (options : RegexTagOptions)
| OtherArg.

(** What [regex] returns: a regex, or [regexFromTemplate] bound to options. *)
Inductive TagResult : Type :=
| Constructed (c : Compiled)
| Bound (options : RegexTagOptions).

(** The options object [{flags: first ?? ''}]. *)
Definition flags_options (fl : string) : RegexTagOptions :=
  mkTagOptions (Some fl) None None None None None.

(** [regex]; [json] is [JSON.stringify([first, ...substitutions])]. *)
Definition regex (U : Utils) (json : string) (first : TagArgument)
           (substitutions : list InterpolatedValue) : Result TagResult :=
  match first, substitutions with
  | TemplateArg template, _ =>
      c <- regexFromTemplate U no_options template substitutions ;; Ok (Constructed c)
  | FlagsArg fl, [] => Ok (Bound (flags_options fl))
  | UndefinedArg, [] => Ok (Bound (flags_options ""))
  | OptionsArg options, [] => Ok (Bound options)
  | _, _ => Throw ("Unexpected arguments: " ++ json)
  end.

(** The call of the function that [regex] returned, on a template. *)
Definition apply_tag (U : Utils) (r : TagResult) (template : RawTemplate)
           (substitutions : list InterpolatedValue) : Result Compiled :=
  match r with
  | Bound options => regexFromTemplate U options template substitutions
  | Constructed _ => Throw "not a function"
  end.

(** [regex] was called with something that is no template. *)
Definition no_template (first : TagArgument) : bool :=
  match first with
  | TemplateArg _ => false
  | _ => true
  end.

(** The flags [i], [s], [m] of a regex and of the outer flags differ. *)
Definition differs_i (re : RegExp) (outerFlags : string) : bool :=
  negb (Bool.eqb (ignoreCase re) (includes "i" outerFlags)).

Definition differs_s (re : RegExp) (outerFlags : string) : bool :=
  negb (Bool.eqb (dotAll re) (includes "s" outerFlags)).

Definition differs_m (re : RegExp) (outerFlags : string) : bool :=
  negb (Bool.eqb (multiline re) (includes "m" outerFlags)).

(** Every entry of a capture map is [true]. *)
Definition all_visible (captureMap : list bool) : bool := forallb (fun b => b) captureMap.

(** The replacement of an unescaped dot, when flag [s] differs and no
    modifier can be used. *)
Definition dot_replacement (re : RegExp) : string :=
  if dotAll re then "[^]" else "[^" ++ newlines ++ "]".

(** The replacements of an unescaped caret and dollar, when flag [m]
    differs and no modifier can be used. *)
Definition caret_replacement (re : RegExp) : string :=
  if multiline re then "(?<=^|[" ++ newlines ++ "])" else "(?<![^])".

Definition dollar_replacement (re : RegExp) : string :=
  if multiline re then "(?=$|[" ++ newlines ++ "])" else "(?![^])".

(** The passes of [transformForLocalFlags] over a text, from a position
    on. *)
Definition dots_from (re : RegExp) (prev rest : string) (numCharClassesOpen : nat) : string :=
  replace_from (literal ".") (dot_replacement re) (Some Context.DEFAULT)
               prev rest numCharClassesOpen.

Definition carets_from (re : RegExp) (prev rest : string) (numCharClassesOpen : nat)
  : string :=
  replace_from (literal "^") (caret_replacement re) (Some Context.DEFAULT)
               prev rest numCharClassesOpen.

Definition dollars_from (re : RegExp) (prev rest : string) (numCharClassesOpen : nat)
  : string :=
  replace_from (literal "$") (dollar_replacement re) (Some Context.DEFAULT)
               prev rest numCharClassesOpen.

(** A separator occurs somewhere in the text. *)
Fixpoint has_separator (s : string) : bool :=
  starts "(?:)" s
  || match s with
     | EmptyString => false
     | String _ s' => has_separator s'
     end.

(** The message of the error that [flagXPreprocessor] throws at the token
    [m] after an incomplete token. *)
Definition incomplete_token_error (m : string) : string :=
  "Invalid incomplete token in character class: " ++ dquote ++ m ++ dquote.

(** The context at the end of the expression of [flagXPreprocessor] with
    the token [m] appended. *)
Definition token_context (U : Utils) (st : FlagXState U) (m : string) : RunningContext U :=
  getEndContextForIncompleteExpression U (fx_expression st ++ m) (fx_runningContext st).

(** [lastSignificantCharClassContext === CharClassContext.RANGE] *)
Definition last_was_range (U : Utils) (st : FlagXState U) : bool :=
  match lastSignificantCharClassContext st with
  | Some l => cc_is l CharClassContext.RANGE
  | None => false
  end.

Arguments token_context : clear implicits.
Arguments last_was_range : clear implicits.

Definition line_feed : ascii := ascii_of_nat 10.

(** The message of the error that [interpolate] throws for the break-out
    character [c]. *)
Definition stray_error (c : string) : string :=
  "Unescaped stray " ++ dquote ++ c ++ dquote
  ++ " in the interpolated value would have side effects outside it".


(** The reference instance on an engine that supports pattern modifiers
    ([patternModsSupported] holds). *)
Definition modifier_utils : Utils :=
  @mkUtils Model.ModelContext Model.mc_regexContext Model.mc_charClassContext
           Model.getEndContextForIncompleteExpression
           Model.enclosedTokenRegexContexts Model.enclosedTokenCharClassContexts
           true true Model.emulationGroupMarker Model.doublePunctuatorChars
           Model.capturingDelim Model.noncapturingDelim
           Model.adjustNumberedBackrefs Model.containsCharClassUnion Model.countCaptures
           Model.escapeV Model.getBreakoutChar Model.sandboxLoneCharClassCaret
           Model.sandboxLoneDoublePunctuatorChar Model.sandboxUnsafeNulls
           Model.preprocess Model.flagNPreprocessor
           Model.idlePlugin Model.idlePlugin Model.idlePlugin Model.idlePlugin
           Model.syntaxError.

(** The state of the loop of [flagXPreprocessor] after the tokens of
    [a #], in a line comment, and after the tokens of [( ], in skipped
    whitespace, with the reference instance. *)
Definition in_line_comment : FlagXState Model.utils :=
  mkFlagX Model.utils false false true "a #" "a" "a"
          (Some CharClassContext.DEFAULT) true
          (Some (Model.mkContext RegexContext.DEFAULT CharClassContext.DEFAULT 0 3)).

Definition in_whitespace : FlagXState Model.utils :=
  mkFlagX Model.utils true false false "( " "(" "("
          (Some CharClassContext.DEFAULT) false
          (Some (Model.mkContext RegexContext.DEFAULT CharClassContext.DEFAULT 0 2)).

(** The state of the loop of [flagXPreprocessor] after the tokens of
    [[a], in a character class, with the reference instance. *)
Definition open_class : FlagXState Model.utils :=
  mkFlagX Model.utils false false false "[a" "[a" "a"
          (Some CharClassContext.DEFAULT) false
          (Some (Model.mkContext RegexContext.CHAR_CLASS CharClassContext.DEFAULT 1 2)).

(** The state of the loop of [regexFromTemplate] after the segment [(a)]
    and the pattern in the hole after it, with the reference instance. *)
Definition after_pattern_hole : LoopState Model.utils :=
  mkLoop Model.utils 2 "(a)(?:(?<p>.))"
         (Some (Model.mkContext RegexContext.DEFAULT CharClassContext.DEFAULT 0 3)).

(** * Properties *)

Unset Implicit Arguments.

Section Properties.

Variable U : Utils.

(** ** Strings *)


Lemma append_empty_r (a : string) : a ++ "" = a.
Proof. induction a as [|x a IH]; simpl; [reflexivity|now rewrite IH]. Qed.

Lemma length_append (a b : string) :
  String.length (a ++ b) = String.length a + String.length b.
Proof. induction a as [|x a IH]; simpl; [reflexivity|now rewrite IH]. Qed.

(** ** Contexts *)

Lemma regex_eqb_refl (r : RegexContext.t) : RegexContext.eqb r r = true.
Proof. destruct r; simpl; auto using String.eqb_refl. Qed.

Lemma regex_eqb_eq (a b : RegexContext.t) : RegexContext.eqb a b = true <-> a = b.
Proof.
  split; [|intros ->; apply regex_eqb_refl].
  destruct a, b; simpl; try discriminate; try reflexivity.
  intros H. apply String.eqb_eq in H. now subst.
Qed.

Lemma charclass_eqb_eq (a b : CharClassContext.t) : CharClassContext.eqb a b = true <-> a = b.
Proof.
  split.
  - destruct a, b; simpl; try discriminate; try reflexivity.
    intros H. apply String.eqb_eq in H. now subst.
  - intros ->. destruct b; simpl; auto using String.eqb_refl.
Qed.

(** ** Options *)

Lemma exists_char_in (p : ascii -> bool) (c : ascii) (s : string) :
  char_in c s = true -> p c = true -> exists_char p s = true.
Proof.
  induction s as [|a s IH]; simpl; [discriminate|].
  intros Hin Hp. apply orb_true_iff in Hin. destruct Hin as [Heq|Hin].
  - apply Ascii.eqb_eq in Heq. subst a. now rewrite Hp.
  - rewrite (IH Hin Hp). apply orb_true_r.
Qed.

Lemma getOptions_implicit_flag (options : RegexTagOptions) (fl : string) (c : ascii) :
  o_flags options = Some fl ->
  char_in c fl = true ->
  char_in c "nuvx" = true ->
  getOptions U options = Throw "Implicit flags v/u/x/n cannot be explicitly added".
Proof.
  intros Hfl Hin Hc. unfold getOptions. rewrite Hfl. simpl default.
  now rewrite (exists_char_in implicit_flag c fl Hin Hc).
Qed.

(** C6. If the flags string of the options holds one of the implicit
    letters n, u, v, x, then both entry points ([regexFromTemplate], which
    the tag calls, and [rewrite]) throw the error of [getOptions],
    whatever the other options, the template and the substitutions are;
    nothing is returned. *)
Theorem implicit_flag_raises_error (options : RegexTagOptions) (fl : string) (c : ascii)
        (template : RawTemplate) (substitutions : list InterpolatedValue)
        (expression : string) :
  o_flags options = Some fl ->
  char_in c fl = true ->
  char_in c "nuvx" = true ->
  regexFromTemplate U options template substitutions
    = Throw "Implicit flags v/u/x/n cannot be explicitly added"
  /\ rewrite U expression options
    = Throw "Implicit flags v/u/x/n cannot be explicitly added".
Proof.
  intros Hfl Hin Hc. unfold regexFromTemplate, rewrite.
  rewrite (getOptions_implicit_flag options fl c Hfl Hin Hc). split; reflexivity.
Qed.

Lemma getOptions_subclass (options : RegexTagOptions) (opts : Options) :
  getOptions U options = Ok opts -> subclass opts = default false (o_subclass options).
Proof.
  unfold getOptions. destruct (exists_char implicit_flag _); [discriminate|].
  intros H. injection H as <-. reflexivity.
Qed.

(** C10. With [subclass: true] among its options, [rewrite] throws for
    every expression: it returns no expression and flags. *)
Theorem rewrite_subclass_throws (expression : string) (options : RegexTagOptions) :
  o_subclass options = Some true ->
  exists message, rewrite U expression options = Throw message.
Proof.
  intros Hsub. unfold rewrite.
  destruct (getOptions U options) as [opts|message] eqn:Hopts; simpl.
  - rewrite (getOptions_subclass options opts Hopts), Hsub. simpl. eauto.
  - eauto.
Qed.

(** ** The scan of [replaceUnescaped] *)

Lemma length_drop (n : nat) (s : string) :
  String.length (drop n s) = String.length s - n.
Proof.
  revert s. induction n as [|n IH]; intros [|c s]; simpl; try reflexivity; try lia.
  apply IH.
Qed.

Lemma length_take (n : nat) (s : string) :
  String.length (take n s) = Nat.min n (String.length s).
Proof.
  revert s. induction n as [|n IH]; intros [|c s]; simpl; try reflexivity.
  now rewrite IH.
Qed.

Lemma take_drop (n : nat) (s : string) : take n s ++ drop n s = s.
Proof.
  revert s. induction n as [|n IH]; intros [|c s]; simpl; try reflexivity.
  now rewrite IH.
Qed.

Lemma take_append (a b : string) : take (String.length a) (a ++ b) = a.
Proof. induction a as [|c a IH]; simpl; [now destruct b|now rewrite IH]. Qed.

Lemma drop_append (a b : string) : drop (String.length a) (a ++ b) = b.
Proof. induction a as [|c a IH]; simpl; [reflexivity|apply IH]. Qed.

Lemma starts_append (p s : string) : starts p (p ++ s) = true.
Proof.
  induction p as [|c p IH]; simpl; [reflexivity|].
  now rewrite Ascii.eqb_refl, IH.
Qed.

Lemma starts_split (p s : string) :
  starts p s = true -> s = p ++ drop (String.length p) s.
Proof.
  revert s. induction p as [|c p IH]; intros s H; [reflexivity|].
  destruct s as [|d s]; simpl in H; [discriminate|].
  apply andb_true_iff in H. destruct H as [Hc Hs].
  apply Ascii.eqb_eq in Hc. subst d. simpl. now rewrite <- (IH s Hs).
Qed.

Lemma length_next (n : nat) (c : ascii) (s : string) :
  String.length (drop (Nat.max n 1) (String c s)) < String.length (String c s).
Proof. rewrite length_drop. cbn [String.length]. lia. Qed.

Lemma length_skip (c : ascii) (s : string) :
  String.length (drop (skip_length (String c s)) (String c s)) < String.length (String c s).
Proof.
  rewrite length_drop. cbn [String.length skip_length].
  destruct (_ || _); lia.
Qed.

Section ScanProperties.

Variables G St : Type.
Variable needle : string -> string -> option (nat * G).
Variable replacement : G -> string -> St -> St * string.
Variable context : option Context.t.

(** The recursive call is on a shorter text, for which the induction
    hypothesis gives the result with any other fuel. *)
Ltac shorter_rest IH f2 :=
  rewrite (IH f2) by (simpl in *; lia); reflexivity.

(** The result of the scan does not depend on the fuel, once there is a
    unit for each character and one for the end of the text. *)
Lemma scan_fuel (f1 : nat) :
  forall (f2 : nat) (prev rest : string) (numOpen : nat) (st : St),
    String.length rest < f1 -> String.length rest < f2 ->
    scan needle replacement context f1 prev rest numOpen st
    = scan needle replacement context f2 prev rest numOpen st.
Proof.
  induction f1 as [|f1 IH]; intros f2 prev rest numOpen st H1 H2; [lia|].
  destruct f2 as [|f2]; [lia|]. cbn [scan].
  destruct (needle prev rest) as [[n g]|].
  - destruct (in_context context numOpen).
    + destruct (replacement g (take n rest) st) as [st1 out].
      destruct rest as [|c rest]; [reflexivity|].
      assert (Hn := length_next n c rest). shorter_rest IH f2.
    + destruct rest as [|c rest]; [reflexivity|].
      assert (Hn := length_next n c rest). shorter_rest IH f2.
  - destruct rest as [|c rest]; [reflexivity|].
    assert (Hn := length_skip c rest). shorter_rest IH f2.
Qed.

Lemma matches_fuel (f1 : nat) :
  forall (f2 : nat) (prev rest : string) (numOpen : nat),
    String.length rest < f1 -> String.length rest < f2 ->
    matches needle context f1 prev rest numOpen
    = matches needle context f2 prev rest numOpen.
Proof.
  induction f1 as [|f1 IH]; intros f2 prev rest numOpen H1 H2; [lia|].
  destruct f2 as [|f2]; [lia|]. cbn [matches].
  destruct (needle prev rest) as [[n g]|].
  - destruct (in_context context numOpen).
    + destruct rest as [|c rest]; [reflexivity|].
      assert (Hn := length_next n c rest). shorter_rest IH f2.
    + destruct rest as [|c rest]; [reflexivity|].
      assert (Hn := length_next n c rest). shorter_rest IH f2.
  - destruct rest as [|c rest]; [reflexivity|].
    assert (Hn := length_skip c rest). shorter_rest IH f2.
Qed.

(** The state after the scan: the replacement function applied to the
    replaced matches, from left to right. *)
Lemma scan_state (fuel : nat) :
  forall (prev rest : string) (numOpen : nat) (st : St),
    fst (scan needle replacement context fuel prev rest numOpen st)
    = fold_left (fun s gm => fst (replacement (fst gm) (snd gm) s))
                (matches needle context fuel prev rest numOpen) st.
Proof.
  induction fuel as [|fuel IH]; intros prev rest numOpen st; [reflexivity|].
  cbn [scan matches].
  destruct (needle prev rest) as [[n g]|].
  - destruct (in_context context numOpen).
    + cbn [fold_left fst snd].
      destruct (replacement g (take n rest) st) as [st1 out] eqn:Hr.
      destruct rest as [|c rest]; [reflexivity|].
      specialize (IH (push_rev (take (Nat.max n 1) (String c rest)) prev)
                     (drop (Nat.max n 1) (String c rest)) numOpen st1).
      destruct (scan _ _ _ fuel _ _ _ st1) as [st2 tail]. exact IH.
    + destruct rest as [|c rest]; [reflexivity|].
      specialize (IH (push_rev (take (Nat.max n 1) (String c rest)) prev)
                     (drop (Nat.max n 1) (String c rest))
                     (track (take n (String c rest)) numOpen) st).
      destruct (scan _ _ _ fuel _ _ _ st) as [st2 tail]. exact IH.
  - destruct rest as [|c rest]; [reflexivity|].
    specialize (IH (push_rev (take (skip_length (String c rest)) (String c rest)) prev)
                   (drop (skip_length (String c rest)) (String c rest))
                   (track (take (skip_length (String c rest)) (String c rest)) numOpen) st).
    destruct (scan _ _ _ fuel _ _ _ st) as [st2 tail]. exact IH.
Qed.

(** The text after the scan does not depend on the state, when the texts
    that the replacement function returns do not. *)
Lemma scan_text (f : G -> string -> string) :
  (forall g m st, snd (replacement g m st) = f g m) ->
  forall (fuel : nat) (prev rest : string) (numOpen : nat) (st : St),
    snd (scan needle replacement context fuel prev rest numOpen st)
    = snd (scan needle (fun g m (u : unit) => (u, f g m)) context fuel prev rest numOpen tt).
Proof.
  intros Hf. induction fuel as [|fuel IH]; intros prev rest numOpen st; [reflexivity|].
  cbn [scan].
  destruct (needle prev rest) as [[n g]|].
  - destruct (in_context context numOpen).
    + specialize (Hf g (take n rest) st).
      destruct (replacement g (take n rest) st) as [st1 out]. simpl in Hf. subst out.
      destruct rest as [|c rest]; [reflexivity|].
      specialize (IH (push_rev (take (Nat.max n 1) (String c rest)) prev)
                     (drop (Nat.max n 1) (String c rest)) numOpen st1).
      destruct (scan _ replacement _ fuel _ _ _ st1) as [st2 tail].
      destruct (scan _ _ _ fuel _ _ _ tt) as [u tail']. simpl in *. now subst.
    + destruct rest as [|c rest]; [reflexivity|].
      specialize (IH (push_rev (take (Nat.max n 1) (String c rest)) prev)
                     (drop (Nat.max n 1) (String c rest))
                     (track (take n (String c rest)) numOpen) st).
      destruct (scan _ replacement _ fuel _ _ _ st) as [st2 tail].
      destruct (scan _ _ _ fuel _ _ _ tt) as [u tail']. simpl in *. now subst.
  - destruct rest as [|c rest]; [reflexivity|].
    specialize (IH (push_rev (take (skip_length (String c rest)) (String c rest)) prev)
                   (drop (skip_length (String c rest)) (String c rest))
                   (track (take (skip_length (String c rest)) (String c rest)) numOpen) st).
    destruct (scan _ replacement _ fuel _ _ _ st) as [st2 tail].
    destruct (scan _ _ _ fuel _ _ _ tt) as [u tail']. simpl in *. now subst.
Qed.

End ScanProperties.

Section ReplaceProperties.

Variable needle : Matcher.
Variable replacement : string.
Variable context : option Context.t.

(** At a needle match in the requested context the replacement is
    written, and the loop goes on after the match. *)
Lemma replace_from_match (prev : string) (c : ascii) (r : string) (numOpen n : nat) :
  needle prev (String c r) = Some n ->
  in_context context numOpen = true ->
  replace_from needle replacement context prev (String c r) numOpen
  = replacement ++ replace_from needle replacement context (push_rev (take (Nat.max n 1) (String c r)) prev)
                        (drop (Nat.max n 1) (String c r)) numOpen.
Proof.
  intros Hn Hc.
  match goal with |- _ = _ ++ ?R => set (rhs := R) end.
  unfold replace_from. cbn [scan]. unfold plain at 1. rewrite Hn, Hc.
  rewrite (scan_fuel _ _ _ _ _ (String.length (String c r))
                     (S (String.length (drop (Nat.max n 1) (String c r)))))
    by (assert (H := length_next n c r); lia).
  subst rhs. unfold replace_from. now destruct (scan _ _ _ _ _ _ _ _).
Qed.

(** A needle match outside the requested context is copied. *)
Lemma replace_from_copy (prev : string) (c : ascii) (r : string) (numOpen n : nat) :
  needle prev (String c r) = Some n ->
  in_context context numOpen = false ->
  replace_from needle replacement context prev (String c r) numOpen
  = take n (String c r)
    ++ replace_from needle replacement context (push_rev (take (Nat.max n 1) (String c r)) prev)
            (drop (Nat.max n 1) (String c r)) (track (take n (String c r)) numOpen).
Proof.
  intros Hn Hc.
  match goal with |- _ = _ ++ ?R => set (rhs := R) end.
  unfold replace_from. cbn [scan]. unfold plain at 1. rewrite Hn, Hc.
  rewrite (scan_fuel _ _ _ _ _ (String.length (String c r))
                     (S (String.length (drop (Nat.max n 1) (String c r)))))
    by (assert (H := length_next n c r); lia).
  subst rhs. unfold replace_from. now destruct (scan _ _ _ _ _ _ _ _).
Qed.

(** Where the needle does not match, the skip token is copied. *)
Lemma replace_from_skip (prev : string) (c : ascii) (r : string) (numOpen : nat) :
  needle prev (String c r) = None ->
  replace_from needle replacement context prev (String c r) numOpen
  = take (skip_length (String c r)) (String c r)
    ++ replace_from needle replacement context (push_rev (take (skip_length (String c r)) (String c r)) prev)
            (drop (skip_length (String c r)) (String c r))
            (track (take (skip_length (String c r)) (String c r)) numOpen).
Proof.
  intros Hn.
  match goal with |- _ = _ ++ ?R => set (rhs := R) end.
  unfold replace_from. cbn [scan]. unfold plain at 1. rewrite Hn.
  rewrite (scan_fuel _ _ _ _ _ (String.length (String c r))
                     (S (String.length (drop (skip_length (String c r)) (String c r)))))
    by (assert (H := length_skip c r); lia).
  subst rhs. unfold replace_from. now destruct (scan _ _ _ _ _ _ _ _).
Qed.

End ReplaceProperties.

(** ** The cleanup stage *)

Lemma count_separators_none (s : string) :
  starts "(?:)" s = false -> count_separators s = 0.
Proof.
  destruct s as [|a [|b [|c [|d s]]]]; try reflexivity.
  cbn [starts count_separators]. rewrite andb_true_r. now intros ->.
Qed.

Lemma count_separators_run (k : nat) (after : string) :
  starts "(?:)" after = false -> count_separators (separators k ++ after) = k.
Proof.
  intros H. induction k as [|k IH]; [now apply count_separators_none|].
  cbn. now rewrite IH.
Qed.

Lemma length_separators (k : nat) : String.length (separators k) = 4 * k.
Proof. induction k as [|k IH]; simpl; [reflexivity|]. rewrite IH. lia. Qed.

(** The needle of the second pass matches a separator exactly when one of
    the four conditions holds and the marker does not follow. *)
Lemma removable_iff (prev after : string) :
  removableSeparator U prev ("(?:)" ++ after)
  = if deletable U prev after then Some 4 else None.
Proof.
  unfold removableSeparator.
  change (starts "(?:)" ("(?:)" ++ after)) with true.
  change (drop 4 ("(?:)" ++ after)) with after. cbv iota.
  unfold deletable, separator_followed, separator_preceded, marker_follows,
    quantifier_follows, condition_a, condition_b, condition_c, condition_d,
    followed_by_boundary, preceded_by_boundary.
  match goal with
  | |- (if ?a then _ else _) = (if ?b then _ else _) =>
      replace a with b; [reflexivity|]
  end.
  btauto.
Qed.

(** A separator where the needle does not match is copied token by
    token, whatever the count of open brackets is. *)
Lemma separator_copied (needle : Matcher) (replacement : string) (prev after : string)
      (numOpen : nat) :
  needle prev ("(?:)" ++ after) = None ->
  (forall p x, needle p (String "?" x) = None) ->
  (forall p x, needle p (String ":" x) = None) ->
  (forall p x, needle p (String ")" x) = None) ->
  replace_from needle replacement (Some Context.DEFAULT) prev ("(?:)" ++ after) numOpen
  = "(?:)" ++ replace_from needle replacement (Some Context.DEFAULT)
                           (push_rev "(?:)" prev) after numOpen.
Proof.
  intros H0 H1 H2 H3. cbn [append] in *.
  rewrite replace_from_skip by exact H0. cbn.
  rewrite replace_from_skip by apply H1. cbn.
  rewrite replace_from_skip by apply H2. cbn.
  rewrite replace_from_skip by apply H3. cbn.
  reflexivity.
Qed.


Lemma removableSeparator_inside (c : ascii) (x : string) (p : string) :
  char_in c "?:)" = true -> removableSeparator U p (String c x) = None.
Proof.
  intros Hc. unfold removableSeparator. cbn [starts].
  destruct (Ascii.eqb "(" c) eqn:E; [|reflexivity].
  apply Ascii.eqb_eq in E. subst c. discriminate.
Qed.

Lemma collapse_run (prev after : string) (k : nat) :
  2 <= k -> starts "(?:)" after = false ->
  collapse_from prev (separators k ++ after) 0
  = "(?:)" ++ collapse_from (push_rev (separators k) prev) after 0.
Proof.
  intros Hk Hafter. unfold collapse_from.
  assert (Hneedle : repeatedSeparators prev (separators k ++ after) = Some (4 * k)).
  { unfold repeatedSeparators. rewrite count_separators_run by exact Hafter.
    destruct (Nat.leb_spec 2 k); [reflexivity|lia]. }
  assert (Hmax : Nat.max (4 * k) 1 = String.length (separators k))
    by (rewrite length_separators; lia).
  destruct k as [|k]; [lia|]. cbn [separators append] in *.
  rewrite (replace_from_match _ _ (Some Context.DEFAULT) _ _ _ 0 _ Hneedle eq_refl).
  rewrite Hmax.
  change (String "(" (String "?" (String ":" (String ")" (separators k ++ after)))))
    with (("(?:)" ++ separators k) ++ after).
  now rewrite take_append, drop_append.
Qed.



Lemma delete_outside (prev after : string) :
  delete_from U prev ("(?:)" ++ after) 0
  = (if deletable U prev after then "" else "(?:)")
    ++ delete_from U (push_rev "(?:)" prev) after 0.
Proof.
  unfold delete_from. assert (Hneedle := removable_iff prev after).
  destruct (deletable U prev after).
  - cbn [append] in Hneedle |- *.
    now rewrite (replace_from_match _ _ (Some Context.DEFAULT) _ _ _ 0 _ Hneedle eq_refl).
  - apply separator_copied; [exact Hneedle| | |];
      intros p x; now apply removableSeparator_inside.
Qed.



(** ** The whitespace preprocessor *)

(** The token part of the loop body throws the hyphen error exactly at a
    hyphen in a character class, when the context after the last
    significant token was [RANGE]. *)
Lemma flagX_token_hyphen (st : FlagXState U) (m : string) :
  flagX_token U st m = Throw hyphen_error
  <-> m = "-"
      /\ regexContext U (getEndContextForIncompleteExpression U (fx_expression st ++ m)
                                                              (fx_runningContext st))
         = RegexContext.CHAR_CLASS
      /\ lastSignificantCharClassContext st = Some CharClassContext.RANGE.
Proof.
  unfold flagX_token. cbn [lastSignificantCharClassContext lastSignificantToken
                           fx_expression fx_runningContext separatorNeeded].
  set (rc := getEndContextForIncompleteExpression U (fx_expression st ++ m)
                                                  (fx_runningContext st)).
  destruct (String.eqb_spec m "-") as [Hm|Hm];
    destruct (RegexContext.eqb (regexContext U rc) RegexContext.CHAR_CLASS) eqn:Hr;
    destruct (lastSignificantCharClassContext st) as [l|] eqn:Hl;
    try destruct (cc_is l CharClassContext.RANGE) eqn:Hcc;
    cbn [andb].
  1: { split; [|reflexivity]. intros _. apply regex_eqb_eq in Hr.
       apply charclass_eqb_eq in Hcc. now subst. }
  all: split;
    [ intros H; exfalso;
      repeat match type of H with
             | context [if ?b then _ else _] => destruct b
             end; cbn in H; discriminate
    | intros [H1 [H2 H3]]; exfalso ].
  all: try (injection H3 as ->; unfold cc_is in Hcc; cbn in Hcc; discriminate).
  all: try discriminate.
  all: try (apply regex_eqb_eq in H2; congruence).
  all: try contradiction.
Qed.

(** The loop of the preprocessor needs a unit of fuel for each character. *)
Lemma flagX_loop_fuel (f1 : nat) :
  forall (f2 : nat) (prev rest : string) (st : FlagXState U),
    String.length rest <= f1 -> String.length rest <= f2 ->
    flagX_loop U f1 prev rest st = flagX_loop U f2 prev rest st.
Proof.
  induction f1 as [|f1 IH]; intros f2 prev rest st H1 H2.
  - destruct rest; [|simpl in H1; lia]. now destruct f2.
  - destruct f2 as [|f2].
    + destruct rest; [reflexivity|simpl in H2; lia].
    + cbn [flagX_loop]. destruct rest as [|c rest]; [reflexivity|].
      destruct (flagX_step U st _) as [st'|]; [|reflexivity]. cbn [bind].
      assert (Hn := length_next (token_length U prev (String c rest)) c rest).
      apply IH; simpl in *; lia.
Qed.

(** C7, as amended. In the loop of [flagXPreprocessor], outside a comment:
    at the token [-], in a character class, the body throws the hyphen
    error when the character-class context after the last significant
    token was [RANGE], and the loop, hence the preprocessor, ends with that
    error; when that context was not [RANGE], the body does not throw the
    hyphen error, and no other token throws it. *)
Theorem hyphen_after_range (st : FlagXState U) (fuel : nat) (prev rest : string) :
  ignoringComment st = false ->
  (regexContext U (getEndContextForIncompleteExpression U (fx_expression st ++ "-")
                                                        (fx_runningContext st))
   = RegexContext.CHAR_CLASS ->
   lastSignificantCharClassContext st = Some CharClassContext.RANGE ->
   flagX_step U st "-" = Throw hyphen_error
   /\ (rest <> "" -> take (token_length U prev rest) rest = "-" ->
       flagX_loop U (S fuel) prev rest st = Throw hyphen_error))
  /\ (lastSignificantCharClassContext st <> Some CharClassContext.RANGE ->
      flagX_step U st "-" <> Throw hyphen_error)
  /\ (forall m, flagX_step U st m = Throw hyphen_error -> m = "-").
Proof.
  intros Hcomment.
  assert (Hstep : forall m, flagX_step U st m = Throw hyphen_error
                            <-> m = "-"
                                /\ regexContext U (getEndContextForIncompleteExpression U
                                                     (fx_expression st ++ m)
                                                     (fx_runningContext st))
                                   = RegexContext.CHAR_CLASS
                                /\ lastSignificantCharClassContext st
                                   = Some CharClassContext.RANGE).
  { intros m. unfold flagX_step. rewrite Hcomment.
    destruct (ignoringWs st).
    - destruct (ws m) eqn:Hws.
      + split; [discriminate|]. intros [-> _]. discriminate.
      + exact (flagX_token_hyphen _ m).
    - destruct (ignoringCharClassWs st).
      + destruct (charClassWs m) eqn:Hws.
        * split; [discriminate|]. intros [-> _]. discriminate.
        * exact (flagX_token_hyphen _ m).
      + exact (flagX_token_hyphen _ m). }
  split; [|split].
  - intros Hr Hl.
    assert (H : flagX_step U st "-" = Throw hyphen_error) by (apply Hstep; auto).
    split; [exact H|].
    intros Hrest Htoken. destruct rest as [|c rest]; [contradiction|].
    cbn [flagX_loop]. now rewrite Htoken, H.
  - intros Hl H. apply Hstep in H. destruct H as [_ [_ H]]. contradiction.
  - intros m H. now apply Hstep in H.
Qed.

(** ** The running capture count *)

Lemma template_step_captures (opts : Options) (raws : list string)
      (substitutions : list InterpolatedValue) (st st' : LoopState U) (i : nat) :
  template_step U opts raws substitutions st i (nth i raws "") = Ok st' ->
  precedingCaptures st' = precedingCaptures st + part_captures U raws substitutions i.
Proof.
  unfold template_step, part_captures.
  destruct (i <? List.length raws - 1)%nat.
  - destruct (interpolate U _ _ _ _ _ _); [|discriminate].
    intros H. injection H as <-. simpl. lia.
  - intros H. injection H as <-. simpl. lia.
Qed.

Lemma template_loop_captures (opts : Options) (raws : list string)
      (substitutions : list InterpolatedValue) (todo : list string) :
  forall (i : nat) (st st' : LoopState U),
    (forall j, j < List.length todo -> nth j todo "" = nth (i + j) raws "") ->
    template_loop U opts raws substitutions st i todo = Ok st' ->
    precedingCaptures st'
    = precedingCaptures st
      + list_sum (map (part_captures U raws substitutions) (seq i (List.length todo))).
Proof.
  induction todo as [|raw todo IH]; intros i st st' Hnth H.
  - injection H as <-. simpl. lia.
  - cbn [template_loop] in H.
    assert (Hraw : raw = nth i raws "").
    { specialize (Hnth 0 ltac:(simpl; lia)). now rewrite Nat.add_0_r in Hnth. }
    subst raw.
    destruct (template_step U opts raws substitutions st i (nth i raws "")) as [st1|]
      eqn:Hstep; [|discriminate].
    cbn [bind] in H. apply IH in H.
    + rewrite H, (template_step_captures _ _ _ _ _ _ Hstep). simpl. lia.
    + intros j Hj. specialize (Hnth (S j) ltac:(simpl; lia)).
      simpl in Hnth. now rewrite Nat.add_succ_r in Hnth.
Qed.

Lemma nth_firstn (i j : nat) (l : list string) :
  j < i -> nth j (firstn i l) "" = nth j l "".
Proof.
  revert j l. induction i as [|i IH]; intros j l Hj; [lia|].
  destruct l as [|x l]; [now destruct j|].
  destruct j as [|j]; [reflexivity|]. simpl. apply IH. lia.
Qed.

(** The count that the loop has reached when it arrives at the segment of
    index [i]: the sum over the parts before it. *)
Lemma captures_at_hole (opts : Options) (raws : list string)
      (substitutions : list InterpolatedValue) (i : nat) (st : LoopState U) :
  i <= List.length raws ->
  template_loop U opts raws substitutions (mkLoop U 0 "" None) 0 (firstn i raws) = Ok st ->
  precedingCaptures st = captures_upto U raws substitutions i.
Proof.
  intros Hi H. apply template_loop_captures in H.
  - rewrite H. simpl. unfold captures_upto. now rewrite length_firstn, Nat.min_l.
  - intros j Hj. rewrite length_firstn in Hj. simpl. apply nth_firstn. lia.
Qed.

(** A native regex in the default context. *)
Lemma interpolate_regexp_default (re : RegExp) (flags : string) (cc : CharClassContext.t)
      (w : bool) (n : nat) :
  complete_token RegexContext.DEFAULT cc = true ->
  restricted_position U RegexContext.DEFAULT cc = false ->
  interpolate U (VRegExp re) flags RegexContext.DEFAULT cc w n
  = interpolate_regexp U re flags n.
Proof.
  unfold complete_token, restricted_position. simpl. intros Hc Hr.
  apply negb_true_iff in Hc. unfold interpolate. simpl. now rewrite Hc, Hr.
Qed.

(** A fragment with a modifier carries its own group. *)
Lemma modifier_is_group (re : RegExp) (outerFlags : string) (t : Transformed) :
  transformForLocalFlags U re outerFlags = Ok t ->
  usedModifier t = true ->
  exists modifier value,
    modifier <> "" /\ t_value t = "(?" ++ modifier ++ ":" ++ value ++ ")".
Proof.
  unfold transformForLocalFlags.
  destruct (_ && negb (patternModsSupported U)); [discriminate|].
  match goal with
  | |- (if ?c then _ else _) = _ -> _ => destruct c eqn:Hc
  end; intros H Hu; injection H as <-; cbn in Hu; [|discriminate].
  apply andb_true_iff in Hc. destruct Hc as [_ Hm].
  apply negb_true_iff, String.eqb_neq in Hm. cbn [t_value].
  do 2 eexists. split; [exact Hm|reflexivity].
Qed.

(** X22. When the loop of [regexFromTemplate] arrives at a hole that holds
    a native regex, in the default context: the running count is the sum
    of the counts that [countCaptures] returns for each part before the
    hole by itself (the segments, and the native regexes and patterns
    among the substitutions); the fragment is the transformed source with
    its numbered backreferences adjusted by that count plus the count of
    the segment before the hole, inside a non-capturing group unless the
    transformation used a modifier group; and the count grows by the count
    of the source.  At the end of the loop the count is the sum of the
    counts of the parts, each counted by itself. *)
Theorem running_count_shift (opts : Options) (raws : list string)
        (substitutions : list InterpolatedValue) (i : nat) (re : RegExp)
        (st : LoopState U) (t : Transformed) :
  let raw := nth i raws "" in
  let expression := l_expression st ++ sandboxUnsafeNulls U raw (Some Context.CHAR_CLASS) in
  let rc := getEndContextForIncompleteExpression U expression (l_runningContext st) in
  let shift := captures_upto U raws substitutions i + countCaptures U raw in
  i < List.length raws - 1 ->
  nth i substitutions VUndefined = VRegExp re ->
  template_loop U opts raws substitutions (mkLoop U 0 "" None) 0 (firstn i raws) = Ok st ->
  regexContext U rc = RegexContext.DEFAULT ->
  complete_token RegexContext.DEFAULT (charClassContext U rc) = true ->
  restricted_position U RegexContext.DEFAULT (charClassContext U rc) = false ->
  transformForLocalFlags U re (flags opts) = Ok t ->
  template_step U opts raws substitutions st i raw
  = Ok (mkLoop U (shift + countCaptures U (source re))
               (expression ++ regexp_fragment U t shift) (Some rc))
  /\ (usedModifier t = true ->
      exists modifier value,
        modifier <> "" /\ t_value t = "(?" ++ modifier ++ ":" ++ value ++ ")")
  /\ (forall final,
        assemble U opts (mkTemplate raws) substitutions = Ok final ->
        precedingCaptures final
        = captures_upto U raws substitutions (List.length raws)).
Proof.
  intros raw expression rc shift Hi Hsub Hloop Hr Hc Hp Ht.
  assert (Hcount := captures_at_hole opts raws substitutions i st ltac:(lia) Hloop).
  split; [|split].
  - unfold template_step. fold raw. fold expression. fold rc.
    destruct (Nat.ltb_spec i (List.length raws - 1)); [|lia].
    rewrite Hsub, Hr, interpolate_regexp_default by assumption.
    unfold interpolate_regexp. rewrite Hcount. fold shift. rewrite Ht.
    reflexivity.
  - apply (modifier_is_group re (flags opts) t Ht).
  - intros final H. unfold assemble in H. simpl in H.
    apply template_loop_captures in H; [exact H|reflexivity].
Qed.

(** ** Templates without substitutions *)

(** C5, as amended. With [disable.x], for a template of one segment and no
    substitution: the whitespace preprocessor is not applied, and the
    cleanup stage is not among the plugins that run; the segment still
    goes through the flag-n preprocessor unless [disable.n], through the
    sandboxing of null escapes in character classes, and through the
    plugins that are left.  When flag n is disabled too and no plugin is
    left, the text that is compiled is the sandboxed segment, in emulation
    mode without its markers: the constructor is called with it and its
    error, if it throws, is the result; when it accepts the text, the
    compiled text is the sandboxed segment, which is the segment as it is
    when the sandboxing finds nothing to rewrite in it. *)
Theorem disabled_whitespace_mode (options : RegexTagOptions) (opts : Options)
        (raw : string) :
  getOptions U options = Ok opts ->
  dis_x (disable opts) = true ->
  handlePreprocessors U (mkTemplate [raw]) [] opts
  = (if dis_n (disable opts) then Ok (mkTemplate [raw], [])
     else preprocess U (mkTemplate [raw]) [] (flagNPreprocessor U) opts)
  /\ plugin_list U opts
     = (plugins opts
        ++ (if dis_subroutines (disable opts) then [] else [subroutinesPlugin U])
        ++ (if dis_atomic (disable opts) then [] else [possessivePlugin U; atomicPlugin U])
        ++ (match unicodeSetsPlugin opts with
            | None => []
            | Some p => [p]
            end))%list
  /\ (dis_n (disable opts) = true ->
      plugin_list U opts = [] ->
      let text := sandboxUnsafeNulls U raw (Some Context.CHAR_CLASS) in
      let unmarked := unmarkEmulationGroups U text in
      regexFromTemplate U options (mkTemplate [raw]) []
      = (if subclass opts then
           match syntaxError U (um_expression unmarked) (flags opts) with
           | Some message => Throw message
           | None => Ok (Wrapped (mkWrapped (um_expression unmarked) (flags opts)
                                            (Some (um_captureMap unmarked))))
           end
         else
           match syntaxError U text (flags opts) with
           | Some message => Throw message
           | None => Ok (NativeRegExp text (flags opts))
           end)
      /\ (subclass opts = false ->
          text = raw ->
          syntaxError U raw (flags opts) = None ->
          regexFromTemplate U options (mkTemplate [raw]) []
          = Ok (NativeRegExp raw (flags opts)))).
Proof.
  intros Hopts Hx. split; [|split].
  - unfold handlePreprocessors. rewrite Hx. destruct (dis_n (disable opts)); reflexivity.
  - unfold plugin_list. now rewrite Hx.
  - intros Hn Hplugins text unmarked.
    assert (H : regexFromTemplate U options (mkTemplate [raw]) []
                = (if subclass opts then
                     match syntaxError U (um_expression unmarked) (flags opts) with
                     | Some message => Throw message
                     | None => Ok (Wrapped (mkWrapped (um_expression unmarked) (flags opts)
                                                      (Some (um_captureMap unmarked))))
                     end
                   else
                     match syntaxError U text (flags opts) with
                     | Some message => Throw message
                     | None => Ok (NativeRegExp text (flags opts))
                     end)).
    { unfold regexFromTemplate. rewrite Hopts. cbn [bind].
      unfold handlePreprocessors. rewrite Hx, Hn. cbn [app fold_left bind fst snd].
      cbn. unfold handlePlugins. rewrite Hplugins. cbn.
      unfold RegExp_new, unmarked, text.
      destruct (subclass opts); destruct (syntaxError U _ _); reflexivity. }
    split; [exact H|]. intros Hsub Hsame Hok. rewrite H, Hsub.
    fold text. rewrite Hsame, Hok. reflexivity.
Qed.

(** ** Emulation groups *)

Lemma unmark_fold (l : list (bool * string)) (captureMap : list bool) :
  fold_left (fun s gm => fst (unmark U (fst gm) (snd gm) s)) l captureMap
  = (captureMap ++ map (fun gm => negb (fst gm)) l)%list.
Proof.
  revert captureMap. induction l as [|[mark m] l IH]; intros captureMap; simpl.
  - now rewrite app_nil_r.
  - rewrite IH. unfold unmark. destruct mark; simpl; now rewrite <- app_assoc.
Qed.

Lemma unmark_captureMap (expression : string) :
  um_captureMap (unmarkEmulationGroups U expression)
  = true :: map negb (marked_delimiters U expression).
Proof.
  unfold unmarkEmulationGroups, replaceUnescaped_run, marked_delimiters, replaced_matches.
  assert (H := scan_state _ _ (markedDelim U) (unmark U) (Some Context.DEFAULT)
                          (S (String.length expression)) "" expression 0 [true]).
  destruct (scan _ _ _ _ _ _ _ _) as [captureMap out]. simpl in H. simpl.
  rewrite H, unmark_fold. simpl. now rewrite map_map.
Qed.

Lemma unmark_expression (expression : string) :
  um_expression (unmarkEmulationGroups U expression)
  = replaceUnescaped_fun expression (markedDelim U) (without_marker U)
                         (Some Context.DEFAULT).
Proof.
  unfold unmarkEmulationGroups, replaceUnescaped_fun, replaceUnescaped_run.
  assert (Hpure : forall g m st, snd (unmark U g m st) = without_marker U g m)
    by (intros [] m st; reflexivity).
  assert (H := scan_text _ _ (markedDelim U) (unmark U) (Some Context.DEFAULT)
                         (without_marker U) Hpure
                         (S (String.length expression)) "" expression 0 [true]).
  rewrite <- H. now destruct (scan _ _ _ _ _ _ _ _).
Qed.










(** ** Interpolation *)

(** A native regex outside the default context. *)
Lemma interpolate_regexp_elsewhere (re : RegExp) (flags : string) (r : RegexContext.t)
      (cc : CharClassContext.t) (w : bool) (n : nat) :
  RegexContext.eqb r RegexContext.DEFAULT = false ->
  interpolate U (VRegExp re) flags r cc w n
  = Throw "Cannot interpolate a RegExp at this position because the syntax context does not match".
Proof. intros H. unfold interpolate. simpl. now rewrite H. Qed.

(** What [interpolate] does with a value that is no native regex, at a
    restricted position after a complete token. *)
Lemma interpolate_restricted (value : InterpolatedValue) (flags : string)
      (r : RegexContext.t) (cc : CharClassContext.t) (w : bool) (n : nat) :
  isRegExp value = false ->
  complete_token r cc = true ->
  restricted_position U r cc = true ->
  interpolate U value flags r cc w n
  = if isNumber value && code_point_escape r cc then Ok (toString16 value)
    else
      let text := String_of value in
      let escapedValue := if isPattern value then "" else escapeV U text (escape_context r) in
      let breakoutChar := getBreakoutChar U (checked_text escapedValue text) r cc in
      if String.eqb breakoutChar "" then Ok (if isPattern value then text else escapedValue)
      else Throw ("Unescaped stray " ++ dquote ++ breakoutChar ++ dquote ++
                  " in the interpolated value would have side effects outside it").
Proof.
  intros Hre Hc Hr. unfold interpolate, complete_token, code_point_escape in *.
  rewrite Hre. simpl andb.
  apply andb_true_iff in Hc. destruct Hc as [Hc1 Hc2].
  apply negb_true_iff in Hc1, Hc2. rewrite Hc1, Hc2. simpl orb.
  destruct (isNumber value && _); [reflexivity|].
  unfold restricted_position in Hr. cbv zeta. simpl orb.
  unfold checked_text, escape_context.
  destruct (String.eqb (getBreakoutChar U _ r cc) ""); simpl; [|reflexivity].
  now rewrite Hr.
Qed.

(** C3, as amended. At the bound of an interval quantifier, in a group
    name and in an enclosed token, after a complete token: a native regex
    raises the error; a trusted pattern is returned as it is, and a plain
    text or a number is returned escaped, unless the text holds a break-out
    character, which raises the error. *)
Theorem restricted_position_values (value : InterpolatedValue) (flags : string)
        (r : RegexContext.t) (cc : CharClassContext.t) (w : bool) (n : nat) :
  restricted_position U r cc = true ->
  RegexContext.eqb r RegexContext.DEFAULT = false ->
  complete_token r cc = true ->
  match value with
  | VRegExp _ =>
      interpolate U value flags r cc w n
      = Throw "Cannot interpolate a RegExp at this position because the syntax context does not match"
  | VPattern p =>
      getBreakoutChar U (patternValue p) r cc = "" ->
      interpolate U value flags r cc w n = Ok (patternValue p)
  | VNumber x =>
      if code_point_escape r cc
      then interpolate U value flags r cc w n = Ok (Number_toString16 x)
      else getBreakoutChar U (checked_text (escapeV U (Number_String x) (escape_context r))
                                           (Number_String x)) r cc = "" ->
           interpolate U value flags r cc w n
           = Ok (escapeV U (Number_String x) (escape_context r))
  | _ =>
      getBreakoutChar U (checked_text (escapeV U (String_of value) (escape_context r))
                                      (String_of value)) r cc = "" ->
      interpolate U value flags r cc w n = Ok (escapeV U (String_of value) (escape_context r))
  end.
Proof.
  intros Hr Hd Hc. destruct value as [s|re|p|k|].
  - intros Hb. rewrite interpolate_restricted by first [assumption | reflexivity].
    cbn [isNumber isPattern andb String_of] in *. cbv zeta. now rewrite Hb.
  - now apply interpolate_regexp_elsewhere.
  - intros Hb. rewrite interpolate_restricted by first [assumption | reflexivity].
    cbn [isNumber isPattern andb String_of] in *. cbv zeta.
    unfold checked_text. cbn [String.eqb]. now rewrite Hb.
  - rewrite interpolate_restricted by first [assumption | reflexivity].
    cbn [isNumber isPattern andb String_of toString16] in *. cbv zeta.
    destruct (code_point_escape r cc); [reflexivity|].
    intros Hb. now rewrite Hb.
  - intros Hb. rewrite interpolate_restricted by first [assumption | reflexivity].
    cbn [isNumber isPattern andb String_of] in *. cbv zeta. now rewrite Hb.
Qed.

(** ** Numbers *)






(** ** Character classes *)


End Properties.

(** * Further properties of the compiler *)

Section Coverage.

Variable U : Utils.

(** ** Options *)

Lemma char_in_append (c : ascii) (a b : string) :
  char_in c (a ++ b) = char_in c a || char_in c b.
Proof.
  induction a as [|x a IH]; simpl; [reflexivity|]. rewrite IH. apply orb_assoc.
Qed.

Lemma exists_char_none (p : ascii -> bool) (c : ascii) (s : string) :
  exists_char p s = false -> p c = true -> char_in c s = false.
Proof.
  intros Hnone Hp. destruct (char_in c s) eqn:Hin; [|reflexivity].
  now rewrite (exists_char_in p c s Hin Hp) in Hnone.
Qed.

(** X1. The flags that [getOptions] returns hold neither [n] nor [x], and
    exactly one of [u] and [v]: [v] when [force.v] is set or when flag v is
    supported and not disabled, [u] otherwise; with [v], no plugin for
    unicode sets is left. *)
Theorem resolved_flags (options : RegexTagOptions) (opts : Options) :
  getOptions U options = Ok opts ->
  char_in "n" (flags opts) = false
  /\ char_in "x" (flags opts) = false
  /\ char_in "v" (flags opts)
     = (force_v (force opts) || (negb (dis_v (disable opts)) && flagVSupported U))
  /\ char_in "u" (flags opts) = negb (char_in "v" (flags opts))
  /\ (char_in "v" (flags opts) = true -> unicodeSetsPlugin opts = None).
Proof.
  unfold getOptions.
  destruct (exists_char implicit_flag (default "" (o_flags options))) eqn:Hnone;
    [discriminate|].
  intros H. injection H as <-. cbn [flags force disable unicodeSetsPlugin].
  assert (Hn := exists_char_none implicit_flag "n" _ Hnone eq_refl).
  assert (Hx := exists_char_none implicit_flag "x" _ Hnone eq_refl).
  assert (Hu := exists_char_none implicit_flag "u" _ Hnone eq_refl).
  assert (Hv := exists_char_none implicit_flag "v" _ Hnone eq_refl).
  rewrite !char_in_append, Hn, Hx, Hu, Hv.
  destruct (force_v _); destruct (dis_v _); destruct (flagVSupported U);
    cbn; repeat split; try reflexivity; discriminate.
Qed.

(** ** Plugins *)

Lemma run_plugins_throw (ps : list Plugin) (data : PluginData) (message : string) :
  fold_left (fun acc p => e <- acc ;; p e data) ps (Throw message) = Throw message.
Proof. induction ps as [|p ps IH]; [reflexivity|exact IH]. Qed.

Lemma run_plugins_app (ps qs : list Plugin) (data : PluginData) (expression : string) :
  run_plugins (ps ++ qs) data expression
  = (e <- run_plugins ps data expression ;; run_plugins qs data e).
Proof.
  unfold run_plugins. generalize (Ok expression : Result string).
  induction ps as [|p ps IH]; intros acc; cbn [app fold_left].
  - destruct acc as [e|message]; [reflexivity|apply run_plugins_throw].
  - apply IH.
Qed.

(** X2. [handlePlugins] runs the plugins of the caller first, in the order
    given, and the built-in stages on what they return; when a plugin of
    the caller throws, no built-in stage runs and the error is the
    result. *)
Theorem user_plugins_run_first (expression : string) (opts : Options) :
  handlePlugins U expression opts
  = (e <- run_plugins (plugins opts) (mkPluginData (flags opts) (subclass opts)) expression ;;
     handlePlugins U e (without_user_plugins opts)).
Proof.
  unfold handlePlugins.
  change (fold_left _ (plugin_list U opts) (Ok expression))
    with (run_plugins (plugin_list U opts) (mkPluginData (flags opts) (subclass opts))
                      expression).
  unfold plugin_list at 1. rewrite run_plugins_app. reflexivity.
Qed.

(** ** The wrapper *)

Lemma exec_push_all_visible (captureMap : list bool) :
  all_visible captureMap = true ->
  forall (captures : list (option string)) (i : nat),
    exec_push captureMap i captures = firstn (List.length captureMap - i) captures.
Proof.
  intros Hall captures. induction captures as [|x captures IH]; intros i.
  - now rewrite firstn_nil.
  - cbn [exec_push]. unfold map_at.
    destruct (Nat.ltb_spec i (List.length captureMap)) as [Hi|Hi].
    + assert (Hnth : nth i captureMap false = true).
      { unfold all_visible in Hall. rewrite forallb_forall in Hall.
        apply Hall. now apply nth_In. }
      rewrite Hnth, IH.
      replace (List.length captureMap - i) with (S (List.length captureMap - S i)) by lia.
      reflexivity.
    + rewrite nth_overflow by lia. rewrite IH.
      replace (List.length captureMap - i) with 0 by lia.
      replace (List.length captureMap - S i) with 0 by lia.
      reflexivity.
Qed.

(** X3. When no entry of the capture map is [false], [exec] returns the
    whole match and the captures that the map has an entry for: the native
    result itself when it has no more entries than the map.  A wrapper
    without a map returns the native result, a failed match stays [null],
    and a copy of a wrapper filters like the original. *)
Theorem exec_without_hidden_groups (w : WrappedRegExp) (captureMap : list bool)
        (whole : option string) (captures : list (option string)) :
  w_captureMap w = Some captureMap ->
  all_visible captureMap = true ->
  exec w (Some (whole :: captures))
  = Some (whole :: firstn (List.length captureMap - 1) captures)
  /\ (List.length (whole :: captures) <= List.length captureMap ->
      exec w (Some (whole :: captures)) = Some (whole :: captures))
  /\ (forall fl native, exec (WrappedRegExp_new (inr w) fl None) native = exec w native)
  /\ (forall e fl native, exec (mkWrapped e fl None) native = native).
Proof.
  intros Hmap Hall.
  assert (H : exec w (Some (whole :: captures))
              = Some (whole :: firstn (List.length captureMap - 1) captures)).
  { unfold exec. rewrite Hmap. cbn [hd tl].
    now rewrite (exec_push_all_visible captureMap Hall). }
  split; [exact H|]. split; [|split].
  - intros Hlen. rewrite H. rewrite firstn_all2; [reflexivity|]. simpl in Hlen. lia.
  - intros fl native. reflexivity.
  - intros e fl native. now destruct native.
Qed.

(** ** The tag *)

(** The options [{flags: ''}] resolve like the empty options. *)
Lemma empty_flags_options (template : RawTemplate) (substitutions : list InterpolatedValue) :
  regexFromTemplate U (flags_options "") template substitutions
  = regexFromTemplate U no_options template substitutions.
Proof. reflexivity. Qed.

(** X4. Called with something that is no template, [regex] throws exactly
    when substitutions follow the first argument or the first argument is
    neither a string, [undefined] nor a plain object, and the error is the
    one of unexpected arguments.  Called with flags, it returns a function
    without looking at the flags: an implicit flag raises its error when
    that function is applied to a template.  The functions returned for no
    argument and for the empty flags compile a template like the tag
    itself. *)
Theorem tag_dispatch (json : string) (first : TagArgument)
        (substitutions : list InterpolatedValue) :
  (no_template first = true ->
   (threw (regex U json first substitutions) = true
    <-> substitutions <> [] \/ first = OtherArg)
   /\ (forall message,
         regex U json first substitutions = Throw message ->
         message = "Unexpected arguments: " ++ json))
  /\ (forall fl, regex U json (FlagsArg fl) [] = Ok (Bound (flags_options fl)))
  /\ (forall fl c template subs,
        char_in c fl = true -> char_in c "nuvx" = true ->
        apply_tag U (Bound (flags_options fl)) template subs
        = Throw "Implicit flags v/u/x/n cannot be explicitly added")
  /\ (forall r template subs,
        regex U json UndefinedArg [] = Ok r \/ regex U json (FlagsArg "") [] = Ok r ->
        apply_tag U r template subs = regexFromTemplate U no_options template subs).
Proof.
  split; [|split; [|split]].
  - intros Hno. destruct first as [t|fl| |o|]; try discriminate;
      destruct substitutions as [|x l]; cbn; split;
      try (intros message H; now injection H);
      try (intros message H; discriminate);
      split; try discriminate; try reflexivity;
      try (intros _; left; discriminate);
      try (intros _; right; reflexivity);
      intros [H|H]; try contradiction; discriminate.
  - reflexivity.
  - intros fl c template subs Hin Hc. unfold apply_tag, regexFromTemplate.
    now rewrite (getOptions_implicit_flag U (flags_options fl) fl c eq_refl Hin Hc).
  - intros r template subs [H|H]; cbn in H; injection H as <-; apply empty_flags_options.
Qed.

(** ** Local flags *)

Lemma transform_cases (re : RegExp) (outerFlags : string) :
  (differs_i re outerFlags && negb (patternModsSupported U) = true
   /\ transformForLocalFlags U re outerFlags
      = Throw "Pattern modifiers not supported, so flag i on the outer and interpolated regex must match")
  \/ (differs_i re outerFlags && negb (patternModsSupported U) = false
      /\ exists t, transformForLocalFlags U re outerFlags = Ok t).
Proof.
  unfold transformForLocalFlags, differs_i.
  destruct (negb (Bool.eqb (ignoreCase re) (includes "i" outerFlags))
            && negb (patternModsSupported U)).
  - left. split; reflexivity.
  - right. split; [reflexivity|].
    match goal with
    | |- exists t, (if ?b then _ else _) = _ => destruct b
    end; eauto.
Qed.

(** X5. [transformForLocalFlags] throws exactly when the regex and the
    outer flags differ in [i] and modifiers are not supported.  When the
    flags [i], [s] and [m] all agree, it returns the source as it is,
    without a modifier, so that [interpolate] puts the source, with its
    backreferences adjusted, in a non-capturing group. *)
Theorem local_flags_errors (re : RegExp) (outerFlags : string) (n : nat) :
  (threw (transformForLocalFlags U re outerFlags) = true
   <-> differs_i re outerFlags = true /\ patternModsSupported U = false)
  /\ (forall message,
        transformForLocalFlags U re outerFlags = Throw message ->
        message = "Pattern modifiers not supported, so flag i on the outer and interpolated regex must match")
  /\ (differs_i re outerFlags = false -> differs_s re outerFlags = false ->
      differs_m re outerFlags = false ->
      transformForLocalFlags U re outerFlags = Ok (mkTransformed (source re) false)
      /\ interpolate_regexp U re outerFlags n
         = Ok ("(?:" ++ adjustNumberedBackrefs U (source re) n ++ ")")).
Proof.
  split; [|split].
  - destruct (transform_cases re outerFlags) as [[Hc H]|[Hc [t H]]]; rewrite H; cbn.
    + apply andb_true_iff in Hc. destruct Hc as [Hi Hp].
      apply negb_true_iff in Hp. tauto.
    + split; [discriminate|]. intros [Hi Hp]. rewrite Hi, Hp in Hc. discriminate.
  - intros message Hm.
    destruct (transform_cases re outerFlags) as [[_ H]|[_ [t H]]];
      rewrite H in Hm; [now injection Hm|discriminate].
  - intros Hi Hs Hm.
    assert (H : transformForLocalFlags U re outerFlags
                = Ok (mkTransformed (source re) false)).
    { unfold differs_i, differs_s, differs_m in *.
      unfold transformForLocalFlags. rewrite Hi, Hs, Hm. cbn.
      now destruct (patternModsSupported U). }
    split; [exact H|]. unfold interpolate_regexp. now rewrite H.
Qed.

(** X6. Where modifiers are supported, the source is never rewritten: the
    result is the source itself when no flag differs, and otherwise the
    source in a modifier group that switches on exactly the differing flags
    that the regex has, and off exactly the differing flags that it lacks,
    in the order [i], [m], [s]. *)
Theorem modifier_group_is_exact (re : RegExp) (outerFlags : string) :
  patternModsSupported U = true ->
  exists on off,
    transformForLocalFlags U re outerFlags
    = Ok (if String.eqb (on ++ off) ""
          then mkTransformed (source re) false
          else mkTransformed ("(?" ++ on ++ (if String.eqb off "" then "" else "-" ++ off)
                                   ++ ":" ++ source re ++ ")") true)
    /\ on = (if differs_i re outerFlags && ignoreCase re then "i" else "")
             ++ (if differs_m re outerFlags && multiline re then "m" else "")
             ++ (if differs_s re outerFlags && dotAll re then "s" else "")
    /\ off = (if differs_i re outerFlags && negb (ignoreCase re) then "i" else "")
              ++ (if differs_m re outerFlags && negb (multiline re) then "m" else "")
              ++ (if differs_s re outerFlags && negb (dotAll re) then "s" else "").
Proof.
  intros Hp. do 2 eexists. split; [|split; reflexivity].
  unfold transformForLocalFlags, differs_i, differs_s, differs_m. rewrite Hp.
  destruct (ignoreCase re), (includes "i" outerFlags),
    (multiline re), (includes "m" outerFlags),
    (dotAll re), (includes "s" outerFlags); reflexivity.
Qed.



(** X8. Where modifiers are not supported and the regex differs from the
    outer flags in [s] and [m], the value is the source after the pass over
    the dots, the pass over the carets and the pass over the dollars.  A
    later pass copies what an earlier pass has written: the caret of the
    class that replaces a dot is not taken for an anchor, and the
    lookbehind that replaces a caret holds no dollar to rewrite. *)
Theorem passes_do_not_interfere (re : RegExp) (outerFlags : string) :
  patternModsSupported U = false ->
  differs_i re outerFlags = false ->
  differs_s re outerFlags = true ->
  differs_m re outerFlags = true ->
  transformForLocalFlags U re outerFlags
  = Ok (mkTransformed
          (dollars_from re "" (carets_from re "" (dots_from re "" (source re) 0) 0) 0)
          false)
  /\ (forall prev after,
        carets_from re prev (dot_replacement re ++ after) 0
        = dot_replacement re
          ++ carets_from re (push_rev (dot_replacement re) prev) after 0)
  /\ (forall prev after,
        dollars_from re prev (dot_replacement re ++ after) 0
        = dot_replacement re
          ++ dollars_from re (push_rev (dot_replacement re) prev) after 0)
  /\ (forall prev after,
        dollars_from re prev (caret_replacement re ++ after) 0
        = caret_replacement re
          ++ dollars_from re (push_rev (caret_replacement re) prev) after 0).
Proof.
  intros Hp Hi Hs Hm. split; [|split; [|split]].
  - unfold differs_i, differs_s, differs_m in *.
    unfold transformForLocalFlags. rewrite Hp, Hi, Hm, Hs. reflexivity.
  - intros prev after. unfold carets_from, dot_replacement, newlines.
    destruct (dotAll re); cbn [append];
      repeat (rewrite replace_from_skip by reflexivity;
              cbn [skip_length take drop push_rev track append andb orb negb
                   Ascii.eqb Bool.eqb String.eqb starts]);
      reflexivity.
  - intros prev after. unfold dollars_from, dot_replacement, newlines.
    destruct (dotAll re); cbn [append];
      repeat (rewrite replace_from_skip by reflexivity;
              cbn [skip_length take drop push_rev track append andb orb negb
                   Ascii.eqb Bool.eqb String.eqb starts]);
      reflexivity.
  - intros prev after. unfold dollars_from, caret_replacement, newlines.
    destruct (multiline re) eqn:Hml; cbn [append];
      repeat (rewrite replace_from_skip by reflexivity;
              cbn [skip_length take drop push_rev track append andb orb negb
                   Ascii.eqb Bool.eqb String.eqb starts]);
      reflexivity.
Qed.

(** ** More on the cleanup stage *)

Lemma drop_drop (j k : nat) (s : string) : drop j (drop k s) = drop (k + j) s.
Proof.
  revert s. induction k as [|k IH]; intros s; [reflexivity|].
  destruct s as [|c s]; [now destruct j|]. apply IH.
Qed.

Lemma skip_length_bound (c : ascii) (s : string) :
  1 <= skip_length (String c s) <= String.length (String c s).
Proof.
  cbn [skip_length String.length]. destruct (Ascii.eqb c "[" && starts "^" s) eqn:H1.
  - cbn. apply andb_true_iff in H1. destruct H1 as [_ H1]. destruct s; [discriminate|].
    simpl. lia.
  - cbn [orb]. destruct (Ascii.eqb c "\" && negb (String.eqb s "")) eqn:H2; [|lia].
    apply andb_true_iff in H2. destruct H2 as [_ H2]. destruct s; [discriminate|].
    simpl. lia.
Qed.

Lemma replace_from_empty (needle : Matcher) (replacement : string)
      (context : option Context.t) (prev : string) (numOpen : nat) :
  needle prev "" = None ->
  replace_from needle replacement context prev "" numOpen = "".
Proof. intros H. unfold replace_from. cbn. unfold plain. now rewrite H. Qed.

(** Where the needle matches at no position of the text, the text is
    copied. *)
Lemma replace_from_untouched (needle : Matcher) (replacement : string)
      (context : option Context.t) (n : nat) :
  forall (rest prev : string) (numOpen : nat),
    String.length rest <= n ->
    (forall k p, needle p (drop k rest) = None) ->
    replace_from needle replacement context prev rest numOpen = rest.
Proof.
  induction n as [|n IH]; intros rest prev numOpen Hlen Hnone.
  - destruct rest; [|simpl in Hlen; lia]. apply replace_from_empty. apply (Hnone 0).
  - destruct rest as [|c rest]; [apply replace_from_empty; apply (Hnone 0)|].
    rewrite replace_from_skip by apply (Hnone 0).
    assert (Hk := skip_length_bound c rest).
    rewrite IH.
    + apply take_drop.
    + rewrite length_drop. cbn [String.length] in *. lia.
    + intros k p. rewrite drop_drop. apply Hnone.
Qed.

Lemma has_separator_drop (k : nat) (s : string) :
  has_separator s = false -> starts "(?:)" (drop k s) = false.
Proof.
  revert s. induction k as [|k IH]; intros s H.
  - destruct s; cbn in H |- *; [reflexivity|].
    apply orb_false_iff in H. tauto.
  - destruct s as [|c s]; [reflexivity|]. cbn [drop]. apply IH.
    cbn [has_separator] in H. apply orb_false_iff in H. tauto.
Qed.

(** X9. An expression in which no separator occurs goes through the
    cleanup stage unchanged. *)
Theorem clean_without_separator (expression : string) :
  has_separator expression = false ->
  cleanPlugin U expression = expression.
Proof.
  intros H. unfold cleanPlugin, replaceUnescaped.
  rewrite (replace_from_untouched repeatedSeparators "(?:)" (Some Context.DEFAULT)
             (String.length expression)); [|lia|].
  - apply (replace_from_untouched (removableSeparator U) "" (Some Context.DEFAULT)
             (String.length expression)); [lia|].
    intros k p. unfold removableSeparator. now rewrite has_separator_drop.
  - intros k p. unfold repeatedSeparators.
    now rewrite count_separators_none by now apply has_separator_drop.
Qed.

(** The result of the loop is not longer than the text, when no match is
    longer than the text left and the replacement is not longer than any
    match. *)
Lemma replace_from_length (needle : Matcher) (replacement : string)
      (context : option Context.t) (n : nat) :
  (forall p rest k, needle p rest = Some k ->
                    String.length replacement <= k <= String.length rest) ->
  forall (rest prev : string) (numOpen : nat),
    String.length rest <= n ->
    String.length (replace_from needle replacement context prev rest numOpen)
    <= String.length rest.
Proof.
  intros Hneedle. induction n as [|n IH]; intros rest prev numOpen Hlen.
  - destruct rest; [|simpl in Hlen; lia].
    unfold replace_from. cbn. unfold plain.
    destruct (needle prev "") as [k|] eqn:Hk; [|simpl; lia].
    apply Hneedle in Hk.
      destruct (in_context context numOpen); cbn [snd String.length] in *;
        rewrite ?length_take; cbn [String.length]; lia.
  - destruct rest as [|c rest].
    + unfold replace_from. cbn. unfold plain.
      destruct (needle prev "") as [k|] eqn:Hk; [|simpl; lia].
      apply Hneedle in Hk.
      destruct (in_context context numOpen); cbn [snd String.length] in *;
        rewrite ?length_take; cbn [String.length]; lia.
    + destruct (needle prev (String c rest)) as [k|] eqn:Hk.
      * assert (Hb := Hneedle _ _ _ Hk).
        assert (Hrec := IH (drop (Nat.max k 1) (String c rest))).
        destruct (in_context context numOpen) eqn:Hc.
        -- rewrite (replace_from_match _ _ _ _ _ _ _ _ Hk Hc), length_append.
           specialize (Hrec (push_rev (take (Nat.max k 1) (String c rest)) prev) numOpen).
           rewrite length_drop in Hrec. cbn [String.length] in *. lia.
        -- rewrite (replace_from_copy _ _ _ _ _ _ _ _ Hk Hc), length_append, length_take.
           specialize (Hrec (push_rev (take (Nat.max k 1) (String c rest)) prev)
                            (track (take k (String c rest)) numOpen)).
           rewrite length_drop in Hrec. cbn [String.length] in *. lia.
      * rewrite (replace_from_skip _ _ _ _ _ _ _ Hk), length_append, length_take.
        assert (Hs := skip_length_bound c rest).
        assert (Hrec := IH (drop (skip_length (String c rest)) (String c rest))
                           (push_rev (take (skip_length (String c rest)) (String c rest)) prev)
                           (track (take (skip_length (String c rest)) (String c rest)) numOpen)).
        rewrite length_drop in Hrec. cbn [String.length] in *. lia.
Qed.

Lemma count_separators_length (s : string) :
  forall n, String.length s <= n -> 4 * count_separators s <= String.length s.
Proof.
  intros n. revert s. induction n as [|n IH]; intros s Hlen.
  - destruct s; [simpl; lia|simpl in Hlen; lia].
  - destruct s as [|a [|b [|c [|d s]]]]; try (simpl; lia).
    cbn [count_separators]. destruct (_ && _); [|simpl; lia].
    specialize (IH s). simpl in *. lia.
Qed.

(** X10. The cleanup stage never makes an expression longer. *)
Theorem clean_never_longer (expression : string) :
  String.length (cleanPlugin U expression) <= String.length expression.
Proof.
  unfold cleanPlugin, replaceUnescaped.
  etransitivity.
  - apply (replace_from_length (removableSeparator U) "" (Some Context.DEFAULT)
             (String.length
                (replace_from repeatedSeparators "(?:)" (Some Context.DEFAULT) ""
                              expression 0))); [|lia].
    intros p rest k. unfold removableSeparator.
    destruct (starts "(?:)" rest) eqn:Hs; [|discriminate].
    destruct (_ && _); [|discriminate]. intros Hk. injection Hk as <-.
    apply starts_split in Hs. rewrite Hs, length_append. simpl. lia.
  - apply (replace_from_length repeatedSeparators "(?:)" (Some Context.DEFAULT)
             (String.length expression)); [|lia].
    intros p rest k. unfold repeatedSeparators.
    destruct (Nat.leb_spec 2 (count_separators rest)); [|discriminate].
    intros Hk. injection Hk as <-.
    assert (Hc := count_separators_length rest (String.length rest) (le_n _)).
    simpl. lia.
Qed.

(** X11. An expression that consists of separators only is cleaned to the
    empty expression (the marker, which is not empty, follows none of
    them). *)
Theorem clean_only_separators (k : nat) :
  emulationGroupMarker U <> "" ->
  cleanPlugin U (separators k) = "".
Proof.
  intros Hmarker.
  assert (Hdelete : delete_from U "" "(?:)" 0 = "").
  { change "(?:)" with ("(?:)" ++ "") at 1. rewrite delete_outside.
    unfold deletable. destruct (emulationGroupMarker U); [contradiction|reflexivity]. }
  assert (Hlone : collapse_from "" (separators k) 0 = separators (Nat.min k 1)).
  { destruct k as [|[|k]]; [reflexivity|reflexivity|].
    rewrite <- (append_empty_r (separators (S (S k)))).
    rewrite collapse_run by (reflexivity || lia). reflexivity. }
  unfold cleanPlugin, replaceUnescaped.
  change (replace_from repeatedSeparators "(?:)" (Some Context.DEFAULT) ""
                       (separators k) 0)
    with (collapse_from "" (separators k) 0).
  rewrite Hlone. destruct k as [|k]; [reflexivity|].
  replace (Nat.min (S k) 1) with 1 by lia. exact Hdelete.
Qed.

(** ** Expressions without emulation groups *)

Lemma take_empty (n : nat) : take n "" = "".
Proof. now destruct n. Qed.

(** Where no replaced match is marked, the scan of
    [unmarkEmulationGroups] copies the text. *)
Lemma scan_unmarked :
  (forall prev rest n, capturingDelim U prev rest = Some n -> 1 <= n) ->
  forall (fuel : nat) (prev rest : string) (numOpen : nat),
    String.length rest < fuel ->
    (forall g m, In (g, m) (matches (markedDelim U) (Some Context.DEFAULT)
                                    fuel prev rest numOpen) -> g = false) ->
    snd (scan (markedDelim U) (fun g m (u : unit) => (u, without_marker U g m))
              (Some Context.DEFAULT) fuel prev rest numOpen tt) = rest.
Proof.
  intros Hdelim. induction fuel as [|fuel IH]; intros prev rest numOpen Hlen Hall; [lia|].
  cbn [scan matches] in Hall |- *.
  destruct (markedDelim U prev rest) as [[n g]|] eqn:Hm.
  - assert (Hn : 1 <= n).
    { unfold markedDelim in Hm.
      destruct (capturingDelim U prev rest) as [k|] eqn:Hk; [|discriminate].
      apply Hdelim in Hk. destruct (starts _ _); injection Hm as <- _; lia. }
    replace (Nat.max n 1) with n in * by lia.
    destruct (in_context (Some Context.DEFAULT) numOpen).
    + assert (g = false) by (apply (Hall g (take n rest)); now left). subst g.
      cbn [without_marker].
      destruct rest as [|c rest]; [apply take_empty|].
      assert (Hd := length_drop n (String c rest)).
      specialize (IH (push_rev (take n (String c rest)) prev) (drop n (String c rest))
                     numOpen).
      destruct (scan _ _ _ fuel _ _ _ tt) as [u tail]. cbn [snd] in *.
      rewrite IH; [apply take_drop|cbn [String.length] in *; lia|].
      intros g m Hin. apply (Hall g m). now right.
    + destruct rest as [|c rest]; [apply take_empty|].
      assert (Hd := length_drop n (String c rest)).
      specialize (IH (push_rev (take n (String c rest)) prev) (drop n (String c rest))
                     (track (take n (String c rest)) numOpen)).
      destruct (scan _ _ _ fuel _ _ _ tt) as [u tail]. cbn [snd] in *.
      rewrite IH; [apply take_drop|cbn [String.length] in *; lia|exact Hall].
  - destruct rest as [|c rest]; [reflexivity|].
    assert (Hs := skip_length_bound c rest).
    assert (Hd := length_drop (skip_length (String c rest)) (String c rest)).
    specialize (IH (push_rev (take (skip_length (String c rest)) (String c rest)) prev)
                   (drop (skip_length (String c rest)) (String c rest))
                   (track (take (skip_length (String c rest)) (String c rest)) numOpen)).
    destruct (scan _ _ _ fuel _ _ _ tt) as [u tail]. cbn [snd] in *.
    rewrite IH; [apply take_drop|cbn [String.length] in *; lia|exact Hall].
Qed.

(** X12. An expression in which the marker follows no capturing-group
    delimiter outside character classes (a delimiter being at least one
    character long) is left as it is by [unmarkEmulationGroups], every
    entry of the capture map is [true], and [exec] of the wrapper built
    from it returns the native result unchanged. *)
Theorem unmarked_expression_unchanged (expression flags : string)
        (whole : option string) (captures : list (option string)) :
  (forall prev rest n, capturingDelim U prev rest = Some n -> 1 <= n) ->
  existsb (fun mark => mark) (marked_delimiters U expression) = false ->
  let unmarked := unmarkEmulationGroups U expression in
  um_expression unmarked = expression
  /\ all_visible (um_captureMap unmarked) = true
  /\ (List.length captures <= List.length (marked_delimiters U expression) ->
      exec (mkWrapped (um_expression unmarked) flags (Some (um_captureMap unmarked)))
           (Some (whole :: captures))
      = Some (whole :: captures)).
Proof.
  intros Hdelim Hnone unmarked.
  assert (Hfalse : forall mark, In mark (marked_delimiters U expression) -> mark = false).
  { intros mark Hin. destruct mark; [|reflexivity].
    assert (H : existsb (fun mark => mark) (marked_delimiters U expression) = true)
      by (apply existsb_exists; now exists true).
    congruence. }
  assert (Hvisible : all_visible (um_captureMap unmarked) = true).
  { unfold unmarked. rewrite unmark_captureMap. unfold all_visible. cbn [forallb andb].
    apply forallb_forall. intros b Hin. apply in_map_iff in Hin.
    destruct Hin as [mark [<- Hin]]. now rewrite (Hfalse _ Hin). }
  split; [|split; [exact Hvisible|]].
  - unfold unmarked. rewrite unmark_expression.
    unfold replaceUnescaped_fun, replaceUnescaped_run.
    apply scan_unmarked; [exact Hdelim|lia|].
    intros g m Hin. apply Hfalse. unfold marked_delimiters, replaced_matches.
    apply in_map_iff. now exists (g, m).
  - intros Hlen. unfold exec. cbn [w_captureMap hd tl].
    rewrite (exec_push_all_visible _ Hvisible), firstn_all2; [reflexivity|].
    unfold unmarked. rewrite unmark_captureMap.
    cbn [List.length]. rewrite length_map. lia.
Qed.

(** ** Errors and comments of the whitespace mode *)

Lemma flagX_token_messages (st : FlagXState U) (m message : string) :
  flagX_token U st m = Throw message ->
  message = hyphen_error \/ message = incomplete_token_error m.
Proof.
  unfold flagX_token, bind. intros H.
  repeat match type of H with
         | context [if ?b then _ else _] => destruct b
         end;
    try discriminate; injection H as <-; auto.
Qed.

Lemma flagX_step_messages (st : FlagXState U) (m message : string) :
  flagX_step U st m = Throw message ->
  message = hyphen_error \/ message = incomplete_token_error m.
Proof.
  unfold flagX_step. intros H.
  repeat match type of H with
         | (if ?b then _ else _) = _ => destruct b
         end;
    try discriminate; now apply flagX_token_messages in H.
Qed.

Lemma flagX_loop_messages (fuel : nat) :
  forall (prev rest : string) (st : FlagXState U) (message : string),
    flagX_loop U fuel prev rest st = Throw message ->
    message = hyphen_error \/ exists m, message = incomplete_token_error m.
Proof.
  induction fuel as [|fuel IH]; intros prev rest st message H; [discriminate|].
  cbn [flagX_loop] in H. destruct rest as [|c rest]; [discriminate|].
  destruct (flagX_step U st _) as [st'|message'] eqn:Hstep; cbn [bind] in H.
  - now apply IH in H.
  - injection H as <-. apply flagX_step_messages in Hstep.
    destruct Hstep as [->| ->]; [now left|right; eauto].
Qed.

(** X13. A token makes [flagXPreprocessor] throw exactly in a character
    class, when it is a hyphen and the last significant token left the
    context of a range, or when the context is that of an incomplete
    token and the token is no opening bracket.  Every error of the
    preprocessor is one of these two. *)
Theorem whitespace_mode_errors (st : FlagXState U) (m : string) :
  threw (flagX_token U st m)
  = RegexContext.eqb (regexContext U (token_context U st m)) RegexContext.CHAR_CLASS
    && ((String.eqb m "-" && last_was_range U st)
        || (cc_is (charClassContext U (token_context U st m))
                  CharClassContext.INVALID_INCOMPLETE_TOKEN
            && negb (String.eqb m "[") && negb (String.eqb m "[^")))
  /\ (forall value runningContext message,
        flagXPreprocessor U value runningContext = Throw message ->
        message = hyphen_error \/ exists t, message = incomplete_token_error t).
Proof.
  split.
  - unfold flagX_token, token_context, last_was_range.
    cbn [lastSignificantCharClassContext lastSignificantToken
         fx_expression fx_runningContext separatorNeeded].
    set (rc := getEndContextForIncompleteExpression U (fx_expression st ++ m)
                                                    (fx_runningContext st)).
    destruct (RegexContext.eqb (regexContext U rc) RegexContext.CHAR_CLASS) eqn:Hr.
    + apply regex_eqb_eq in Hr. rewrite Hr. cbn [RegexContext.eqb andb orb].
      destruct (String.eqb m "-");
        destruct (match lastSignificantCharClassContext st with
                  | Some l => cc_is l CharClassContext.RANGE
                  | None => false
                  end); cbn [andb orb]; try reflexivity.
      all: destruct (cc_is (charClassContext U rc)
                           CharClassContext.INVALID_INCOMPLETE_TOKEN) eqn:Hcc;
        [ apply charclass_eqb_eq in Hcc; rewrite Hcc; unfold cc_is;
          cbn [CharClassContext.eqb andb orb]; rewrite ?andb_false_r
        | cbn [andb orb] ].
      all: repeat match goal with
                  | |- context [if ?b then _ else _] => destruct b
                  end; reflexivity.
    + cbn [andb].
      rewrite !andb_false_r. cbn [andb orb].
      repeat match goal with
             | |- context [if ?b then _ else _] => destruct b
             end; reflexivity.
  - intros value runningContext message. unfold flagXPreprocessor.
    destruct (flagX_loop U _ _ _ _) as [st'|message'] eqn:Hloop; [discriminate|].
    cbn [bind]. intros H. injection H as <-. now apply flagX_loop_messages in Hloop.
Qed.

Lemma char_in_drop (c : ascii) (k : nat) :
  forall s, char_in c s = false -> char_in c (drop k s) = false.
Proof.
  induction k as [|k IH]; intros s H; [now destruct s|].
  destruct s as [|a s]; [reflexivity|]. cbn [drop]. apply IH.
  cbn [char_in] in H. apply orb_false_iff in H. tauto.
Qed.

Lemma take_single (n : nat) (c : ascii) (s : string) :
  take n s = str c -> char_in c s = true.
Proof.
  destruct n as [|n]; [destruct s; discriminate|].
  destruct s as [|a s]; [discriminate|]. cbn [take]. intros H. injection H as -> _.
  cbn [char_in]. now rewrite Ascii.eqb_refl.
Qed.

(** X14. In a line comment the tokens are dropped: when no line feed is
    left in the text, the loop of [flagXPreprocessor] ends in the state it
    is in; the token that is a line feed ends the comment and asks for a
    separator, and no other token does (a line feed after a backslash is
    the second character of a token, so the comment goes on). *)
Theorem comment_runs_to_line_feed (fuel : nat) (prev rest : string) (st : FlagXState U) :
  ignoringComment st = true ->
  (char_in line_feed rest = false -> flagX_loop U fuel prev rest st = Ok st)
  /\ flagX_step U st (str line_feed)
     = Ok (set_ignoring U st (ignoringWs st) (ignoringCharClassWs st) false true)
  /\ (forall m, m <> str line_feed -> flagX_step U st m = Ok st).
Proof.
  intros Hcomment. split; [|split].
  - revert prev rest st Hcomment.
    induction fuel as [|fuel IH]; intros prev rest st Hcomment Hrest; [reflexivity|].
    cbn [flagX_loop]. destruct rest as [|c rest]; [reflexivity|].
    unfold flagX_step at 1. rewrite Hcomment.
    destruct (String.eqb_spec (take (token_length U prev (String c rest)) (String c rest))
                              (str (ascii_of_nat 10))) as [Heq|Hne].
    + apply take_single in Heq. unfold line_feed in Hrest. congruence.
    + cbn [bind]. apply IH; [exact Hcomment|]. now apply char_in_drop.
  - unfold flagX_step. now rewrite Hcomment.
  - intros m Hm. unfold flagX_step. rewrite Hcomment.
    destruct (String.eqb_spec m (str (ascii_of_nat 10))); [contradiction|reflexivity].
Qed.

(** X15. After skipped whitespace outside character classes, a quantifier
    is joined to the text before it without a separator (and, as a [?]
    after an opening parenthesis, followed by one), while any other token
    that is kept is put after a separator. *)
Theorem separator_after_whitespace (st : FlagXState U) (m : string) :
  ignoringComment st = false ->
  ignoringWs st = true ->
  ws m = false ->
  regexContext U (token_context U st m) = RegexContext.DEFAULT ->
  starts "#" m = false ->
  escapedWsOrHash m = false ->
  exists st',
    flagX_step U st m = Ok st'
    /\ fx_transformed st'
       = fx_transformed st
         ++ (if is_quantifier_token m
             then m ++ (if String.eqb (lastSignificantToken st) "(" && String.eqb m "?"
                        then "(?:)" else "")
             else "(?:)" ++ m)
    /\ separatorNeeded st' = false
    /\ ignoringWs st' = false.
Proof.
  intros Hcomment Hws Hm Hr Hhash Hescaped.
  unfold flagX_step. rewrite Hcomment, Hws, Hm. unfold flagX_token, token_context in *.
  cbn [set_ignoring lastSignificantCharClassContext lastSignificantToken
       fx_expression fx_runningContext separatorNeeded fx_transformed
       ignoringWs ignoringCharClassWs ignoringComment].
  rewrite Hr. cbn [RegexContext.eqb andb orb]. rewrite !andb_false_r. cbn [orb].
  rewrite Hm, Hhash, Hescaped.
  destruct (is_quantifier_token m); cbn [bind update set_ignoring
       lastSignificantCharClassContext lastSignificantToken
       fx_expression fx_runningContext separatorNeeded fx_transformed
       ignoringWs ignoringCharClassWs ignoringComment andb orb].
  - destruct (ignoringCharClassWs st); eexists; (split; [reflexivity|]);
      cbn [update fx_transformed separatorNeeded ignoringWs andb orb append];
      rewrite ?append_empty_r; repeat split; reflexivity.
  - destruct (ignoringCharClassWs st); eexists; (split; [reflexivity|]);
      cbn [update fx_transformed separatorNeeded ignoringWs andb orb append];
      rewrite ?append_empty_r; repeat split; reflexivity.
Qed.

(** X21. In a character class, a space or a tab in the default, range or
    string-literal context is dropped: nothing is appended, no separator
    is asked for, the last significant token stays, and the spaces and tabs
    after it are dropped as well. *)
Theorem class_whitespace_dropped (st : FlagXState U) (m : string) :
  ignoringComment st = false ->
  ignoringWs st = false ->
  ignoringCharClassWs st = false ->
  charClassWs m = true ->
  regexContext U (token_context U st m) = RegexContext.CHAR_CLASS ->
  (let cc := charClassContext U (token_context U st m) in
   cc_is cc CharClassContext.DEFAULT || cc_is cc CharClassContext.RANGE
   || cc_is cc CharClassContext.Q_TOKEN = true) ->
  exists st',
    flagX_step U st m = Ok st'
    /\ fx_transformed st' = fx_transformed st
    /\ separatorNeeded st' = separatorNeeded st
    /\ lastSignificantToken st' = lastSignificantToken st
    /\ lastSignificantCharClassContext st' = lastSignificantCharClassContext st
    /\ ignoringCharClassWs st' = true
    /\ (forall m', charClassWs m' = true -> flagX_step U st' m' = Ok st').
Proof.
  intros Hcomment Hws Hclass Hm Hr Hcc. cbv zeta in Hcc.
  assert (Htoken : (m = " " \/ m = str (ascii_of_nat 9))).
  { destruct m as [|c [|d m]]; try discriminate. cbn [charClassWs] in Hm.
    apply orb_true_iff in Hm. destruct Hm as [Hm|Hm]; apply Ascii.eqb_eq in Hm; subst c; auto. }
  unfold flagX_step. rewrite Hcomment, Hws, Hclass.
  unfold flagX_token, token_context in *.
  cbn [lastSignificantCharClassContext lastSignificantToken fx_expression
       fx_runningContext separatorNeeded fx_transformed
       ignoringWs ignoringCharClassWs ignoringComment].
  rewrite Hr, Hm, Hcc. cbn [RegexContext.eqb andb orb].
  assert (Hplain : String.eqb m "-" = false /\ String.eqb m "[" = false
                   /\ String.eqb m "[^" = false)
    by (destruct Htoken as [-> | ->]; repeat split; reflexivity).
  destruct Hplain as [H1 [H2 H3]]. rewrite H1, H2, H3.
  cbn [andb negb bind set_ignoring ignoringWs ignoringCharClassWs ignoringComment orb].
  rewrite Hws. cbn [orb].
  eexists. split; [reflexivity|].
  cbn [fx_transformed separatorNeeded lastSignificantToken
       lastSignificantCharClassContext ignoringCharClassWs ignoringWs ignoringComment].
  repeat split; try reflexivity.
  intros m' Hm'. cbn [set_ignoring ignoringComment ignoringWs ignoringCharClassWs].
  rewrite Hcomment, Hm'. reflexivity.
Qed.

(** ** Interpolation *)

(** X16. After an incomplete token every interpolation throws, whatever
    the value.  An error of [interpolate] is one of five: the one of a
    native regex outside the default context, the one of an incomplete
    token, the one of a break-out character, the one of an operator at the
    boundary of a pattern, and the one of the flag [i] that cannot be
    matched without pattern modifiers. *)
Theorem interpolation_errors (value : InterpolatedValue) (flags : string)
        (r : RegexContext.t) (cc : CharClassContext.t) (w : bool) (n : nat) :
  (complete_token r cc = false ->
   interpolate U value flags r cc w n
   = Throw (if isRegExp value && negb (RegexContext.eqb r RegexContext.DEFAULT)
            then "Cannot interpolate a RegExp at this position because the syntax context does not match"
            else "Interpolation preceded by invalid incomplete token"))
  /\ (forall message,
        interpolate U value flags r cc w n = Throw message ->
        message = "Cannot interpolate a RegExp at this position because the syntax context does not match"
        \/ message = "Interpolation preceded by invalid incomplete token"
        \/ (exists c, c <> "" /\ message = stray_error c)
        \/ message = "Cannot use range or set operator at boundary of interpolated pattern; move the operation into the pattern or the operator outside of it"
        \/ message = "Pattern modifiers not supported, so flag i on the outer and interpolated regex must match").
Proof.
  split.
  - unfold complete_token, interpolate. intros Hc.
    destruct (isRegExp value && negb (RegexContext.eqb r RegexContext.DEFAULT));
      [reflexivity|].
    destruct (RegexContext.eqb r RegexContext.INVALID_INCOMPLETE_TOKEN);
      destruct (CharClassContext.eqb cc CharClassContext.INVALID_INCOMPLETE_TOKEN);
      try reflexivity; discriminate.
  - intros message H. unfold interpolate in H.
    destruct (isRegExp value && negb (RegexContext.eqb r RegexContext.DEFAULT));
      [injection H as <-; auto|].
    destruct (_ || _) in H; [injection H as <-; auto|].
    destruct (isNumber value && _) in H; [discriminate|].
    cbv zeta in H.
    match type of H with
    | (if negb (String.eqb ?b "") then _ else _) = _ =>
        destruct (String.eqb_spec b "") as [Hb|Hb]; cbn [negb] in H;
          [|injection H as <-; right; right; left; exists b; split; [exact Hb|reflexivity]]
    end.
    destruct (_ || _) in H; [discriminate|].
    destruct (RegexContext.eqb r RegexContext.CHAR_CLASS).
    + destruct (isPattern value); [|discriminate].
      destruct (hasUnescaped _ _); [injection H as <-; auto 6|discriminate].
    + destruct value as [s|re|p|k|]; try discriminate.
      unfold interpolate_regexp in H.
      destruct (transform_cases re flags) as [[_ Ht]|[_ [t Ht]]]; rewrite Ht in H;
        [injection H as <-; auto 6|discriminate].
Qed.

(** X17. In the default context, after a complete token: a plain text is
    escaped and, when [wrapEscapedStr] is set, put in a non-capturing
    group; a trusted pattern is put in a non-capturing group as it is;
    either raises the error of the break-out character it holds. *)
Theorem default_position_values (flags : string) (cc : CharClassContext.t)
        (w : bool) (n : nat) :
  restricted_position U RegexContext.DEFAULT cc = false ->
  CharClassContext.eqb cc CharClassContext.INVALID_INCOMPLETE_TOKEN = false ->
  (forall s : string,
      let escaped := escapeV U s Context.DEFAULT in
      let breakoutChar := getBreakoutChar U (checked_text escaped s) RegexContext.DEFAULT cc in
      interpolate U (VString s) flags RegexContext.DEFAULT cc w n
      = if String.eqb breakoutChar "" then
          Ok (if w then "(?:" ++ escaped ++ ")" else escaped)
        else Throw (stray_error breakoutChar))
  /\ (forall p : Pattern,
      let breakoutChar := getBreakoutChar U (patternValue p) RegexContext.DEFAULT cc in
      interpolate U (VPattern p) flags RegexContext.DEFAULT cc w n
      = if String.eqb breakoutChar "" then Ok ("(?:" ++ patternValue p ++ ")")
        else Throw (stray_error breakoutChar)).
Proof.
  intros Hr Hc. unfold restricted_position in Hr. cbn [RegexContext.eqb orb] in Hr.
  split.
  - intros s escaped breakoutChar. unfold interpolate.
    cbn [isRegExp isNumber isPattern andb orb RegexContext.eqb String_of]. rewrite Hc.
    cbv zeta. fold escaped. unfold checked_text in breakoutChar. fold breakoutChar.
    destruct (String.eqb breakoutChar ""); cbn [negb]; [|reflexivity].
    now rewrite Hr.
  - intros p breakoutChar. unfold interpolate.
    cbn [isRegExp isNumber isPattern andb orb RegexContext.eqb String_of]. rewrite Hc.
    cbv zeta. cbn [String.eqb]. fold breakoutChar.
    destruct (String.eqb breakoutChar ""); cbn [negb]; [|reflexivity].
    now rewrite Hr.
Qed.

(** One step of the loop of [hasUnescaped] at a character that is no
    backslash. *)
Lemma exec_scan_step (needle : Matcher) (fuel : nat) (prev rest : string) (c : ascii) :
  c <> "\"%char ->
  exec_scan needle (S fuel) prev (String c rest)
  = match needle prev (String c rest) with
    | Some _ => true
    | None => exec_scan needle fuel (String c prev) rest
    end.
Proof.
  intros Hc. cbn [exec_scan]. destruct (needle prev (String c rest)); [reflexivity|].
  destruct c as [[] [] [] [] [] [] [] []]; try reflexivity.
  now contradiction Hc.
Qed.

Lemma boundary_at_end (operator : string) :
  operator = "-" \/ operator = "&&" ->
  forall (q prev : string),
    char_in "\" q = false ->
    exec_scan boundaryOperator (S (String.length (q ++ operator))) prev (q ++ operator)
    = true.
Proof.
  intros Hop. induction q as [|c q IH]; intros prev Hq.
  - destruct Hop as [-> | ->]; now destruct prev.
  - cbn [char_in] in Hq. apply orb_false_iff in Hq. destruct Hq as [Hc Hq].
    apply Ascii.eqb_neq in Hc.
    change (String c q ++ operator) with (String c (q ++ operator)).
    cbn [String.length]. rewrite exec_scan_step by congruence.
    destruct (boundaryOperator prev _); [reflexivity|]. now apply IH.
Qed.

(** X18. In a character class, a trusted pattern that starts with a
    hyphen or a double ampersand, or that ends with one after a text
    without backslash, raises the error of an operator at the boundary. *)
Theorem boundary_operator_rejected (flags : string) (cc : CharClassContext.t)
        (w : bool) (n : nat) (p : string) :
  restricted_position U RegexContext.CHAR_CLASS cc = false ->
  CharClassContext.eqb cc CharClassContext.INVALID_INCOMPLETE_TOKEN = false ->
  getBreakoutChar U p RegexContext.CHAR_CLASS cc = "" ->
  starts "-" p = true \/ starts "&&" p = true
  \/ (exists q, char_in "\" q = false /\ (p = q ++ "-" \/ p = q ++ "&&")) ->
  interpolate U (VPattern (pattern p)) flags RegexContext.CHAR_CLASS cc w n
  = Throw "Cannot use range or set operator at boundary of interpolated pattern; move the operation into the pattern or the operator outside of it".
Proof.
  intros Hr Hc Hb Hp.
  assert (Hop : hasUnescaped p boundaryOperator = true).
  { unfold hasUnescaped. destruct Hp as [Hp|[Hp|[q [Hq Hp]]]].
    - apply starts_split in Hp. now rewrite Hp.
    - apply starts_split in Hp. now rewrite Hp.
    - destruct Hp as [-> | ->]; apply boundary_at_end; auto. }
  unfold restricted_position in Hr. cbn [RegexContext.eqb orb] in Hr.
  unfold interpolate.
  cbn [isRegExp isNumber isPattern andb orb RegexContext.eqb String_of patternValue].
  rewrite Hc. cbv zeta. cbn [String.eqb]. rewrite Hb. cbn [negb String.eqb].
  now rewrite Hr, Hop.
Qed.

(** ** The loop over the template *)

Lemma template_loop_app (opts : Options) (raws : list string)
      (substitutions : list InterpolatedValue) (done : list string) :
  forall (todo : list string) (st : LoopState U) (i : nat),
    template_loop U opts raws substitutions st i (done ++ todo)
    = (st' <- template_loop U opts raws substitutions st i done ;;
       template_loop U opts raws substitutions st' (i + List.length done) todo).
Proof.
  induction done as [|raw done IH]; intros todo st i.
  - cbn [app template_loop bind List.length]. now rewrite Nat.add_0_r.
  - cbn [app template_loop List.length].
    destruct (template_step U opts raws substitutions st i raw) as [st1|]; [|reflexivity].
    cbn [bind]. rewrite IH. now rewrite Nat.add_succ_r.
Qed.

Lemma split_at (raws : list string) :
  forall i, i < List.length raws ->
            raws = (firstn i raws ++ nth i raws "" :: skipn (S i) raws)%list.
Proof.
  induction raws as [|raw raws IH]; intros i Hi; [simpl in Hi; lia|].
  destruct i as [|i]; [reflexivity|].
  cbn [firstn nth skipn app]. f_equal. apply IH. simpl in Hi. lia.
Qed.

(** X19. When the loop of [regexFromTemplate] has passed the segments
    before the one of index [i] and its body throws at that segment (the
    interpolation of the hole after it fails), [regexFromTemplate] throws
    that error: no later hole is looked at and no plugin runs. *)
Theorem first_failing_hole (options : RegexTagOptions) (template : RawTemplate)
        (substitutions : list InterpolatedValue) (opts : Options)
        (prepped : RawTemplate * list InterpolatedValue) (i : nat)
        (st : LoopState U) (message : string) :
  getOptions U options = Ok opts ->
  handlePreprocessors U template substitutions opts = Ok prepped ->
  i < List.length (raw (fst prepped)) ->
  template_loop U opts (raw (fst prepped)) (snd prepped) (mkLoop U 0 "" None) 0
                (firstn i (raw (fst prepped))) = Ok st ->
  template_step U opts (raw (fst prepped)) (snd prepped) st i
                (nth i (raw (fst prepped)) "") = Throw message ->
  regexFromTemplate U options template substitutions = Throw message.
Proof.
  intros Hopts Hprep Hi Hloop Hstep. unfold regexFromTemplate.
  rewrite Hopts. cbn [bind]. rewrite Hprep. cbn [bind]. unfold assemble.
  rewrite (split_at (raw (fst prepped)) i Hi) at 2.
  rewrite template_loop_app, Hloop. cbn [bind template_loop].
  rewrite length_firstn, Nat.min_l by lia. cbn [Nat.add].
  now rewrite Hstep.
Qed.

(** X20. For an expression whose preprocessed text holds no null to
    sandbox, and without the option [subclass], the tag applied to the
    template of that one segment calls the native constructor with the
    expression and the flags that [rewrite] returns: it throws the error
    of [rewrite] when [rewrite] throws, the error of the constructor when
    the constructor rejects them (where [rewrite] returns), and else
    returns the regex constructed from them. *)
Theorem rewrite_agrees_with_tag (expression : string) (options : RegexTagOptions)
        (opts : Options) (prepped : RawTemplate * list InterpolatedValue)
        (segment : string) :
  getOptions U options = Ok opts ->
  subclass opts = false ->
  handlePreprocessors U (mkTemplate [expression]) [] opts = Ok prepped ->
  raw (fst prepped) = [segment] ->
  sandboxUnsafeNulls U segment (Some Context.CHAR_CLASS) = segment ->
  regexFromTemplate U options (mkTemplate [expression]) []
  = (rewritten <- rewrite U expression options ;;
     _ <- RegExp_new U (rw_expression rewritten) (rw_flags rewritten) ;;
     Ok (NativeRegExp (rw_expression rewritten) (rw_flags rewritten))).
Proof.
  intros Hopts Hsub Hprep Hraw Hnull. unfold rewrite, regexFromTemplate.
  rewrite Hopts. cbn [bind]. rewrite Hsub, Hprep. cbn [bind].
  unfold assemble. rewrite Hraw. cbn [template_loop hd].
  unfold template_step. cbn [List.length Nat.sub Nat.ltb Nat.leb bind l_expression append].
  rewrite Hnull.
  destruct (handlePlugins U segment opts); reflexivity.
Qed.

End Coverage.

(** ** Instances on concrete inputs *)

Lemma implicit_flag_raises_error_witness :
  let options := mkTagOptions (Some "gx") None None None None None in
  regexFromTemplate Model.utils options (mkTemplate ["a"]) []
    = Throw "Implicit flags v/u/x/n cannot be explicitly added"
  /\ rewrite Model.utils "a" options
    = Throw "Implicit flags v/u/x/n cannot be explicitly added".
Proof.
  apply (implicit_flag_raises_error Model.utils
           (mkTagOptions (Some "gx") None None None None None) "gx" "x"%char
           (mkTemplate ["a"]) [] "a");
    reflexivity.
Defined.

Lemma rewrite_subclass_throws_witness :
  exists message,
    rewrite Model.utils "(a)"
            (mkTagOptions None (Some true) None None None None) = Throw message.
Proof.
  apply (rewrite_subclass_throws Model.utils "(a)"
           (mkTagOptions None (Some true) None None None None)).
  reflexivity.
Defined.

Lemma restricted_position_values_witness :
  interpolate Model.utils (VPattern (pattern "n")) "v"
              RegexContext.GROUP_NAME CharClassContext.DEFAULT true 0 = Ok "n"
  /\ interpolate Model.utils (VNumber (OtherNumber "1e+21" "3635c9adc5dea00000")) "v"
                 RegexContext.INTERVAL_QUANTIFIER CharClassContext.DEFAULT true 0
     = Ok "1e\+21"
  /\ interpolate Model.utils (VNumber (SafeInteger 65 eq_refl)) "v"
                 RegexContext.ENCLOSED_U CharClassContext.DEFAULT true 0
     = Ok "41"
  /\ interpolate Model.utils (VRegExp (mkRegExp "a" false false false)) "v"
                 RegexContext.GROUP_NAME CharClassContext.DEFAULT true 0
     = Throw "Cannot interpolate a RegExp at this position because the syntax context does not match".
Proof.
  split; [|split; [|split]].
  - apply (restricted_position_values Model.utils (VPattern (pattern "n")) "v"
             RegexContext.GROUP_NAME CharClassContext.DEFAULT true 0);
      reflexivity.
  - apply (restricted_position_values Model.utils
             (VNumber (OtherNumber "1e+21" "3635c9adc5dea00000")) "v"
             RegexContext.INTERVAL_QUANTIFIER CharClassContext.DEFAULT true 0);
      reflexivity.
  - apply (restricted_position_values Model.utils (VNumber (SafeInteger 65 eq_refl)) "v"
             RegexContext.ENCLOSED_U CharClassContext.DEFAULT true 0);
      reflexivity.
  - apply (restricted_position_values Model.utils
             (VRegExp (mkRegExp "a" false false false)) "v"
             RegexContext.GROUP_NAME CharClassContext.DEFAULT true 0);
      reflexivity.
Defined.

(** C3, as stated, fails: a trusted pattern in a group name, in the bound
    of an interval quantifier and in a property escape compiles. *)
Lemma trusted_pattern_accepted :
  let options := mkTagOptions None None None None
                              (Some (mkDisable false true false false false)) None in
  interpolate Model.utils (VPattern (pattern "n")) "v"
              RegexContext.GROUP_NAME CharClassContext.DEFAULT true 0 = Ok "n"
  /\ regexFromTemplate Model.utils options
        (mkTemplate ["(?<"; ">a{"; "})\p{"; "}"])
        [VPattern (pattern "n"); VPattern (pattern "2"); VPattern (pattern "L")]
      = Ok (NativeRegExp "(?<n>a{2})\p{L}" "v").
Proof. split; vm_compute; reflexivity. Qed.








Lemma hyphen_after_range_witness :
  flagX_loop Model.utils 4 "" "[a- " (flagX_init Model.utils None) = Ok after_range_hyphen
  /\ flagX_step Model.utils after_range_hyphen "-" = Throw hyphen_error
  /\ flagX_loop Model.utils 3 " -a[" "-z]" after_range_hyphen = Throw hyphen_error
  /\ flagXPreprocessor Model.utils "[a- -z]" None = Throw hyphen_error
  /\ threw (flagXPreprocessor Model.utils "[a-z]" None) = false.
Proof.
  destruct (hyphen_after_range Model.utils after_range_hyphen 2 " -a[" "-z]" eq_refl)
    as [H _].
  destruct (H eq_refl eq_refl) as [Hstep Hloop].
  split; [reflexivity|]. split; [exact Hstep|]. split.
  - apply Hloop; [discriminate|reflexivity].
  - split; reflexivity.
Defined.

Lemma running_count_shift_witness :
  let opts := mkOptions "v" false [] None (mkDisable true true false false false)
                        (mkForce false) in
  let re := mkRegExp "(d)(e)\2\1" false false false in
  let raws := ["(a)"; "(b)"; ""] in
  let substitutions := [VPattern (pattern "(?<p>.)"); VRegExp re] in
  template_loop Model.utils opts raws substitutions (mkLoop Model.utils 0 "" None) 0 ["(a)"]
  = Ok after_pattern_hole
  /\ (exists rc,
        template_step Model.utils opts raws substitutions after_pattern_hole 1 "(b)"
        = Ok (mkLoop Model.utils 5 "(a)(?:(?<p>.))(b)(?:(d)(e)\5\4)" rc))
  /\ regexFromTemplate Model.utils
        (mkTagOptions None None None None
                      (Some (mkDisable true true false false false)) None)
        (mkTemplate raws) substitutions
      = Ok (NativeRegExp "(a)(?:(?<p>.))(b)(?:(d)(e)\5\4)" "v").
Proof.
  intros opts re raws substitutions.
  destruct (running_count_shift Model.utils opts raws substitutions 1 re
              after_pattern_hole (mkTransformed "(d)(e)\2\1" false)
              ltac:(simpl; lia) eq_refl eq_refl eq_refl eq_refl eq_refl eq_refl)
    as [Hstep _].
  split; [reflexivity|]. split; [eexists; exact Hstep|reflexivity].
Defined.

(** C2. A capturing group whose opening delimiter is split between two
    segments by a hole (here the hole of the group name) is in no part by
    itself, so the loop of [regexFromTemplate] does not count it: one
    group is opened before the hole of the native regex and one more by
    the pattern before it, yet the backreference is adjusted by one, not
    by two, and refers to the group of the pattern. *)
Theorem split_delimiter_not_counted :
  let re := mkRegExp "(b)\1" false false false in
  let compiled := "(?<n>a)(?:(?<c>c))(?:(b)\2)" in
  regexFromTemplate Model.utils no_options
    (mkTemplate ["(?<"; ">a)"; ""; ""])
    [VString "n"; VPattern (pattern "(?<c>c)"); VRegExp re]
  = Ok (NativeRegExp compiled "v")
  /\ Model.countCaptures "(?<n>a)(?:(?<c>c))" = 2
  /\ Model.countCaptures "(?<" + Model.countCaptures "n" + Model.countCaptures ">a)"
     + Model.countCaptures "(?<c>c)" + Model.countCaptures "" = 1
  /\ Model.adjustNumberedBackrefs "(b)\1" 2 = "(b)\3"
  /\ compiled <> "(?<n>a)(?:(?<c>c))(?:(b)\3)".
Proof. repeat split; try (vm_compute; reflexivity). discriminate. Qed.

Lemma disabled_whitespace_mode_witness :
  regexFromTemplate Model.utils (bare_options "g") (mkTemplate ["a  b # c"]) []
  = Ok (NativeRegExp "a  b # c" "gv")
  /\ threw (regexFromTemplate Model.utils (bare_options "g") (mkTemplate ["a  (b # c"]) [])
     = true.
Proof.
  destruct (disabled_whitespace_mode Model.utils (bare_options "g")
              (mkOptions "gv" false [] None (mkDisable true true false true true)
                         (mkForce false))
              "a  b # c" eq_refl eq_refl) as [_ [_ H]].
  destruct (disabled_whitespace_mode Model.utils (bare_options "g")
              (mkOptions "gv" false [] None (mkDisable true true false true true)
                         (mkForce false))
              "a  (b # c" eq_refl eq_refl) as [_ [_ H']].
  destruct (H eq_refl eq_refl) as [_ Hsame].
  destruct (H' eq_refl eq_refl) as [Hthrow _].
  split; [apply Hsame; reflexivity|]. rewrite Hthrow. vm_compute. reflexivity.
Defined.

(** C5, as stated, fails: with [disable.x] and the plugin of the test
    suite, the compiled text is not the literal segment. *)
Lemma plugin_rewrites_segment :
  regexFromTemplate Model.utils
    (mkTagOptions None None (Some [wiggle]) None
                  (Some (mkDisable true true false true true)) None)
    (mkTemplate ["^~$"]) []
  = Ok (NativeRegExp "^wiggle$" "v")
  /\ "^wiggle$" <> "^~$".
Proof. split; [reflexivity|discriminate]. Qed.

(** C7, as stated, fails on its example: the hyphen of [a b - z] follows
    the significant token [b], after which the context is not [RANGE]; the
    whitespace is stripped and the range compiles, inside a character class
    and outside. *)
Lemma spaced_range_compiles :
  flagXPreprocessor Model.utils "[a b - z]" None
  = Ok (mkPreprocessorResult "[ab-z]"
          (Some (Model.mkContext RegexContext.DEFAULT CharClassContext.DEFAULT 0 9)))
  /\ flagXPreprocessor Model.utils "a b - z" None
     = Ok (mkPreprocessorResult "a(?:)b(?:)-(?:)z"
             (Some (Model.mkContext RegexContext.DEFAULT CharClassContext.DEFAULT 0 7)))
  /\ regexFromTemplate Model.utils no_options (mkTemplate ["[a b - z]"]) []
     = Ok (NativeRegExp "[ab-z]" "v").
Proof. repeat split; reflexivity. Qed.


(** ** Instances of the further properties *)

Lemma resolved_flags_witness :
  exists opts,
    getOptions Model.utils (flags_options "gi") = Ok opts
    /\ flags opts = "giv"
    /\ char_in "v" (flags opts) = true
    /\ char_in "u" (flags opts) = false
    /\ unicodeSetsPlugin opts = None.
Proof.
  eexists. split; [reflexivity|].
  destruct (resolved_flags Model.utils (flags_options "gi") _ eq_refl)
    as [_ [_ [Hv [Hu Hplugin]]]].
  split; [reflexivity|]. split; [exact Hv|]. split; [exact Hu|]. now apply Hplugin.
Defined.

Lemma exec_without_hidden_groups_witness :
  exec (mkWrapped "(a)(b)" "v" (Some [true; true; true]))
       (Some [Some "ab"; Some "a"; Some "b"])
  = Some [Some "ab"; Some "a"; Some "b"].
Proof.
  destruct (exec_without_hidden_groups (mkWrapped "(a)(b)" "v" (Some [true; true; true]))
              [true; true; true] (Some "ab") [Some "a"; Some "b"] eq_refl eq_refl)
    as [_ [H _]].
  apply H. simpl. lia.
Defined.

Lemma tag_dispatch_witness :
  threw (regex Model.utils "[1,2]" OtherArg []) = true
  /\ regex Model.utils "[1,2]" OtherArg [] = Throw "Unexpected arguments: [1,2]"
  /\ apply_tag Model.utils (Bound (flags_options "gx")) (mkTemplate ["a"]) []
     = Throw "Implicit flags v/u/x/n cannot be explicitly added".
Proof.
  destruct (tag_dispatch Model.utils "[1,2]" OtherArg []) as [H [_ [Himplicit _]]].
  destruct (H eq_refl) as [Hiff Hmessage].
  split; [apply Hiff; now right|]. split; [reflexivity|].
  apply (Himplicit "gx" "x"%char); reflexivity.
Defined.

Lemma local_flags_errors_witness :
  threw (transformForLocalFlags Model.utils (mkRegExp "a" true false false) "v") = true
  /\ interpolate_regexp Model.utils (mkRegExp "(a)\1" false false false) "v" 2
     = Ok "(?:(a)\3)".
Proof.
  destruct (local_flags_errors Model.utils (mkRegExp "a" true false false) "v" 0)
    as [Hiff _].
  destruct (local_flags_errors Model.utils (mkRegExp "(a)\1" false false false) "v" 2)
    as [_ [_ Hsame]].
  split; [apply Hiff; split; reflexivity|].
  destruct (Hsame eq_refl eq_refl eq_refl) as [_ H]. exact H.
Defined.

Lemma modifier_group_is_exact_witness :
  transformForLocalFlags modifier_utils (mkRegExp "a.b" true false false) "vs"
  = Ok (mkTransformed "(?i-s:a.b)" true).
Proof.
  destruct (modifier_group_is_exact modifier_utils (mkRegExp "a.b" true false false) "vs"
              eq_refl) as [on [off [H [Hon Hoff]]]].
  rewrite H, Hon, Hoff. reflexivity.
Defined.


Lemma passes_do_not_interfere_witness :
  transformForLocalFlags Model.utils (mkRegExp "^a.b$" false true true) "v"
  = Ok (mkTransformed "(?<=^|[\n\r\u2028\u2029])a[^]b(?=$|[\n\r\u2028\u2029])" false).
Proof.
  destruct (passes_do_not_interfere Model.utils (mkRegExp "^a.b$" false true true) "v"
              eq_refl eq_refl eq_refl eq_refl) as [H _].
  rewrite H. reflexivity.
Defined.

Lemma clean_without_separator_witness :
  cleanPlugin Model.utils "a+b|c" = "a+b|c".
Proof. apply (clean_without_separator Model.utils "a+b|c"). reflexivity. Defined.

Lemma clean_only_separators_witness :
  cleanPlugin Model.utils "(?:)(?:)(?:)" = "".
Proof. apply (clean_only_separators Model.utils 3). discriminate. Defined.

(** A capturing-group delimiter of the reference instance is not empty. *)
Lemma model_delimiter_not_empty (prev rest : string) (n : nat) :
  capturingDelim Model.utils prev rest = Some n -> 1 <= n.
Proof.
  cbn [capturingDelim Model.utils]. unfold Model.capturingDelim. intros H.
  repeat match type of H with
         | context [match ?x with _ => _ end] => destruct x
         end;
    try discriminate; injection H as <-; lia.
Qed.

Lemma unmarked_expression_unchanged_witness :
  let unmarked := unmarkEmulationGroups Model.utils "(a)(?<n>b)" in
  um_expression unmarked = "(a)(?<n>b)"
  /\ um_captureMap unmarked = [true; true; true]
  /\ exec (mkWrapped (um_expression unmarked) "v" (Some (um_captureMap unmarked)))
          (Some [Some "ab"; Some "a"; Some "b"])
     = Some [Some "ab"; Some "a"; Some "b"].
Proof.
  intros unmarked.
  destruct (unmarked_expression_unchanged Model.utils "(a)(?<n>b)" "v" (Some "ab")
              [Some "a"; Some "b"] model_delimiter_not_empty eq_refl)
    as [Hexpr [_ Hexec]].
  split; [exact Hexpr|]. split; [reflexivity|]. apply Hexec. simpl. lia.
Defined.

Lemma whitespace_mode_errors_witness :
  threw (flagX_token Model.utils after_range_hyphen "-") = true
  /\ threw (flagX_token Model.utils (flagX_init Model.utils None) "-") = false.
Proof.
  destruct (whitespace_mode_errors Model.utils after_range_hyphen "-") as [H1 _].
  destruct (whitespace_mode_errors Model.utils (flagX_init Model.utils None) "-") as [H2 _].
  split; [rewrite H1|rewrite H2]; reflexivity.
Defined.

Lemma comment_runs_to_line_feed_witness :
  flagX_loop Model.utils 3 "" "a #" (flagX_init Model.utils None) = Ok in_line_comment
  /\ flagX_loop Model.utils 8 "# a" " b [c] +" in_line_comment = Ok in_line_comment
  /\ flagXPreprocessor Model.utils "a # b [c] +" None
     = Ok (mkPreprocessorResult "a" (fx_runningContext in_line_comment)).
Proof.
  destruct (comment_runs_to_line_feed Model.utils 8 "# a" " b [c] +" in_line_comment eq_refl)
    as [H _].
  split; [reflexivity|]. split; [apply H; reflexivity|reflexivity].
Defined.

Lemma separator_after_whitespace_witness :
  flagX_loop Model.utils 2 "" "( " (flagX_init Model.utils None) = Ok in_whitespace
  /\ (exists st', flagX_step Model.utils in_whitespace "?" = Ok st'
                  /\ fx_transformed st' = "(?(?:)")
  /\ (exists st', flagX_step Model.utils in_whitespace "a" = Ok st'
                  /\ fx_transformed st' = "((?:)a").
Proof.
  split; [reflexivity|]. split.
  - destruct (separator_after_whitespace Model.utils in_whitespace "?"
                eq_refl eq_refl eq_refl eq_refl eq_refl eq_refl) as [st' [Hstep [Ht _]]].
    exists st'. split; [exact Hstep|exact Ht].
  - destruct (separator_after_whitespace Model.utils in_whitespace "a"
                eq_refl eq_refl eq_refl eq_refl eq_refl eq_refl) as [st' [Hstep [Ht _]]].
    exists st'. split; [exact Hstep|exact Ht].
Defined.

Lemma interpolation_errors_witness :
  interpolate Model.utils (VString "a") "v" RegexContext.INVALID_INCOMPLETE_TOKEN
              CharClassContext.DEFAULT true 0
  = Throw "Interpolation preceded by invalid incomplete token"
  /\ interpolate Model.utils (VRegExp (mkRegExp "a" false false false)) "v"
                 RegexContext.CHAR_CLASS CharClassContext.INVALID_INCOMPLETE_TOKEN true 0
     = Throw "Cannot interpolate a RegExp at this position because the syntax context does not match".
Proof.
  destruct (interpolation_errors Model.utils (VString "a") "v"
              RegexContext.INVALID_INCOMPLETE_TOKEN CharClassContext.DEFAULT true 0)
    as [H1 _].
  destruct (interpolation_errors Model.utils (VRegExp (mkRegExp "a" false false false)) "v"
              RegexContext.CHAR_CLASS CharClassContext.INVALID_INCOMPLETE_TOKEN true 0)
    as [H2 _].
  split; [apply H1|apply H2]; reflexivity.
Defined.

Lemma default_position_values_witness :
  interpolate Model.utils (VString "a.b") "v" RegexContext.DEFAULT
              CharClassContext.DEFAULT true 0 = Ok "(?:a\.b)"
  /\ interpolate Model.utils (VString "a.b") "v" RegexContext.DEFAULT
                 CharClassContext.DEFAULT false 0 = Ok "a\.b"
  /\ interpolate Model.utils (VPattern (pattern "a|b")) "v" RegexContext.DEFAULT
                 CharClassContext.DEFAULT true 0 = Ok "(?:a|b)"
  /\ interpolate Model.utils (VPattern (pattern "a)")) "v" RegexContext.DEFAULT
                 CharClassContext.DEFAULT true 0 = Throw (stray_error ")").
Proof.
  destruct (default_position_values Model.utils "v" CharClassContext.DEFAULT true 0
              eq_refl eq_refl) as [Hs Hp].
  destruct (default_position_values Model.utils "v" CharClassContext.DEFAULT false 0
              eq_refl eq_refl) as [Hs' _].
  split; [exact (Hs "a.b")|]. split; [exact (Hs' "a.b")|].
  split; [exact (Hp (pattern "a|b"))|exact (Hp (pattern "a)"))].
Defined.

Lemma boundary_operator_rejected_witness :
  threw (interpolate Model.utils (VPattern (pattern "-a")) "v" RegexContext.CHAR_CLASS
                     CharClassContext.DEFAULT true 0) = true
  /\ threw (interpolate Model.utils (VPattern (pattern "a&&")) "v" RegexContext.CHAR_CLASS
                        CharClassContext.DEFAULT true 0) = true.
Proof.
  split.
  - rewrite (boundary_operator_rejected Model.utils "v" CharClassContext.DEFAULT true 0 "-a"
               eq_refl eq_refl eq_refl (or_introl eq_refl)).
    reflexivity.
  - rewrite (boundary_operator_rejected Model.utils "v" CharClassContext.DEFAULT true 0 "a&&"
               eq_refl eq_refl eq_refl
               (or_intror (or_intror (ex_intro _ "a" (conj eq_refl (or_intror eq_refl)))))).
    reflexivity.
Defined.

Lemma first_failing_hole_witness :
  regexFromTemplate Model.utils
    (mkTagOptions None None None None (Some (mkDisable true true false false false)) None)
    (mkTemplate ["a"; "b\"; "c"]) [VString "x"; VString "y"]
  = Throw "Interpolation preceded by invalid incomplete token".
Proof.
  refine (first_failing_hole Model.utils
            (mkTagOptions None None None None
                          (Some (mkDisable true true false false false)) None)
            (mkTemplate ["a"; "b\"; "c"]) [VString "x"; VString "y"]
            _ _ 1 _ _ eq_refl eq_refl _ eq_refl eq_refl).
  simpl. lia.
Defined.

Lemma rewrite_agrees_with_tag_witness :
  regexFromTemplate Model.utils no_options (mkTemplate ["a b"]) []
  = Ok (NativeRegExp "a(?:)b" "v")
  /\ rewrite Model.utils "a b" no_options = Ok (mkRewritten "a(?:)b" "v")
  /\ rewrite Model.utils "(a" no_options = Ok (mkRewritten "(?:a" "v")
  /\ threw (regexFromTemplate Model.utils no_options (mkTemplate ["(a"]) []) = true.
Proof.
  split; [|split; [|split]; vm_compute; reflexivity].
  etransitivity.
  - apply (rewrite_agrees_with_tag Model.utils "a b" no_options
             (mkOptions "v" false [] None (mkDisable false false false false false)
                        (mkForce false))
             (mkTemplate ["a(?:)b"], []) "a(?:)b");
      vm_compute; reflexivity.
  - vm_compute; reflexivity.
Defined.

Lemma class_whitespace_dropped_witness :
  exists st',
    flagX_step Model.utils open_class " " = Ok st'
    /\ fx_transformed st' = "[a"
    /\ flagX_step Model.utils st' " " = Ok st'
    /\ flagXPreprocessor Model.utils "[a  b]" None
       = Ok (mkPreprocessorResult "[ab]"
               (Some (Model.mkContext RegexContext.DEFAULT CharClassContext.DEFAULT 0 5))).
Proof.
  destruct (class_whitespace_dropped Model.utils open_class " "
              eq_refl eq_refl eq_refl eq_refl eq_refl eq_refl)
    as [st' [Hstep [Ht [_ [_ [_ [_ Hnext]]]]]]].
  exists st'. split; [exact Hstep|]. split; [exact Ht|].
  split; [now apply Hnext|reflexivity].
Defined.
